(** * The agent registry of porter: [AgentManager]

    A shallow embedding of [src/managers/AgentManager.ts] and the properties
    of its registry: classification of a port into a location, merge or
    creation of the logical agent, reference counting of the ports behind an
    agent, forced removal, the partial-location query and the event hub.

    Conventions of the embedding.
    - A JavaScript [Map] is an association list in insertion order with
      unique keys ([JsMap]); a [Set] is a list in insertion order without
      repetition ([JsSet]), compared by object identity.
    - A [Runtime.Port] is an object: [ref] is its identity, and a port set
      compares ports by [ref] alone.
    - Tab and frame identifiers are integers ([Z]); [x || d] on them is
      [Js.or_number]: both [undefined] and [0] select the default.
    - [uuidv4()] and [Date.now()] are the environment's: every call of
      [addAgent] receives the value each would return ([uuid], [now]).
    - A subscribed handler is a function object, identified by a number; what
      it does when invoked belongs to the host ([invoke]): it may return or
      throw, and it may call back into the registry and so change its state.
    - The logger only writes; it is left out of the state. *)

From Stdlib Require Import String Ascii List ZArith Bool Lia PeanoNat FinFun.
Import ListNotations.
Local Open Scope string_scope.

(** ** JavaScript values *)

Module Js.

(** [!!s] for a string. *)
Definition truthy_string (s : string) : bool := negb (s =? "").

(** [!!n] for an integer. *)
Definition truthy_number (n : Z) : bool := negb (n =? 0)%Z.

(** [x || d] where [x] is a possibly undefined number. *)
Definition or_number (x : option Z) (d : Z) : Z :=
  match x with
  | Some n => if truthy_number n then n else d
  | None => d
  end.

(** [x || d] where [x] is a possibly undefined string. *)
Definition or_string (x : option string) (d : string) : string :=
  match x with
  | Some v => if truthy_string v then v else d
  | None => d
  end.

(** [s.includes(needle)]. *)
Fixpoint includes (needle s : string) : bool :=
  if String.prefix needle s then true
  else match s with
       | EmptyString => false
       | String _ rest => includes needle rest
       end.

Fixpoint split_pop_from (segment s : string) : string :=
  match s with
  | EmptyString => segment
  | String c rest =>
      if Ascii.eqb c "/"%char then split_pop_from "" rest
      else split_pop_from (segment ++ String c "") rest
  end.

(** [s.split('/').pop()]: what follows the last slash. *)
Definition split_pop (s : string) : string := split_pop_from "" s.

End Js.

(** ** [Map] with string keys, in insertion order *)

Module JsMap.
Section WithValue.
Context {V : Type}.

Fixpoint get (k : string) (m : list (string * V)) : option V :=
  match m with
  | [] => None
  | (k', v) :: rest => if k' =? k then Some v else get k rest
  end.

Definition has (k : string) (m : list (string * V)) : bool :=
  match get k m with Some _ => true | None => false end.

(** [m.set(k, v)]: an existing key keeps its place, a new one goes last. *)
Fixpoint set (k : string) (v : V) (m : list (string * V)) : list (string * V) :=
  match m with
  | [] => [(k, v)]
  | (k', v') :: rest =>
      if k' =? k then (k, v) :: rest else (k', v') :: set k v rest
  end.

Definition delete (k : string) (m : list (string * V)) : list (string * V) :=
  filter (fun e => negb (fst e =? k)) m.

Definition keys (m : list (string * V)) : list string := map fst m.
Definition values (m : list (string * V)) : list V := map snd m.

End WithValue.
End JsMap.

(** ** [Set], in insertion order, over a notion of identity *)

Module JsSet.
Section WithIdentity.
Context {A : Type} (same : A -> A -> bool).

Definition has (x : A) (l : list A) : bool := existsb (same x) l.

Definition add (x : A) (l : list A) : list A :=
  if has x l then l else l ++ [x].

Definition delete (x : A) (l : list A) : list A :=
  filter (fun y => negb (same x y)) l.

End WithIdentity.
End JsSet.

(** ** The data model ([porter.model], [Runtime.Port]) *)

(** [AgentId] and [PorterContext] are strings at run time. *)
Abbreviation AgentId := string (only parsing).
Abbreviation PorterContext := string (only parsing).

Record Tab := { tab_id : option Z }.

Record MessageSender := {
  tab : option Tab;
  url : option string;
  sender_frameId : option Z
}.

Record Port := {
  ref : nat;
  name : string;
  sender : option MessageSender
}.

Definition same_port (p q : Port) : bool := Nat.eqb (ref p) (ref q).

Record BrowserLocation := {
  context : PorterContext;
  tabId : Z;
  frameId : Z
}.

Record PartialLocation := {
  partial_context : option PorterContext;
  partial_tabId : option Z;
  partial_frameId : option Z
}.

Record AgentInfo := {
  id : AgentId;
  location : BrowserLocation;
  createdAt : Z;
  lastActiveAt : Z
}.

Record Agent := {
  ports : list Port;
  info : AgentInfo
}.

(** What [identifyConnectionSource] returns. *)
Record ConnectionSource := {
  source_context : PorterContext;
  source_tabId : option Z;
  source_frameId : option Z;
  source_url : option string;
  source_portName : string
}.

(** The page paths [identifyConnectionSource] reads off the manifest. *)
Record Manifest := {
  side_panel_default_path : option string;
  options_page : option string;
  action_default_popup : option string;
  devtools_page : option string;
  chrome_url_overrides_newtab : option string;
  chrome_url_overrides_bookmarks : option string;
  chrome_url_overrides_history : option string
}.

(** ** The event hub's values *)

(** A handler is a function object: its number is its identity. *)
Abbreviation Handler := nat (only parsing).

(** The arguments of the three [emit] calls of the class. *)
Inductive EventArgs :=
| AgentSetupArgs (agentInfo : AgentInfo) (port : Port)
| AgentMessageArgs (message : string) (agentInfo : AgentInfo)
| AgentDisconnectArgs (agentInfo : AgentInfo).

(** A listener [addAgent] attaches to a port: the closure's captured
    variables. *)
Inductive PortListener :=
| OnMessage (port : Port) (agentId : AgentId)
| OnDisconnect (port : Port) (agentId : AgentId).

(** ** The registry

    The three private maps of the class, and three histories that only grow:
    the [emit] calls made, the handler invocations made, and the listeners
    attached to ports. *)
Record State := {
  agents : list (AgentId * list Port);
  agentsInfo : list (AgentId * AgentInfo);
  eventHandlers : list (string * list Handler);
  emitted : list (string * EventArgs);
  invoked : list (Handler * EventArgs);
  listeners : list PortListener
}.

Definition with_agents (a : list (AgentId * list Port)) (s : State) : State :=
  {| agents := a; agentsInfo := agentsInfo s; eventHandlers := eventHandlers s;
     emitted := emitted s; invoked := invoked s; listeners := listeners s |}.

Definition with_agentsInfo (i : list (AgentId * AgentInfo)) (s : State) : State :=
  {| agents := agents s; agentsInfo := i; eventHandlers := eventHandlers s;
     emitted := emitted s; invoked := invoked s; listeners := listeners s |}.

Definition with_eventHandlers (h : list (string * list Handler)) (s : State) : State :=
  {| agents := agents s; agentsInfo := agentsInfo s; eventHandlers := h;
     emitted := emitted s; invoked := invoked s; listeners := listeners s |}.

Definition with_emitted (e : list (string * EventArgs)) (s : State) : State :=
  {| agents := agents s; agentsInfo := agentsInfo s; eventHandlers := eventHandlers s;
     emitted := e; invoked := invoked s; listeners := listeners s |}.

Definition with_invoked (c : list (Handler * EventArgs)) (s : State) : State :=
  {| agents := agents s; agentsInfo := agentsInfo s; eventHandlers := eventHandlers s;
     emitted := emitted s; invoked := c; listeners := listeners s |}.

Definition with_listeners (l : list PortListener) (s : State) : State :=
  {| agents := agents s; agentsInfo := agentsInfo s; eventHandlers := eventHandlers s;
     emitted := emitted s; invoked := invoked s; listeners := l |}.

(** How a call ends: it returns [a] in state [s], it throws in state [s], or
    the fuel given to the handler loop ran out. *)
Inductive Result (A : Type) :=
| Ok (a : A) (s : State)
| Exn (s : State)
| OutOfFuel.
Arguments Ok {A} a s.
Arguments Exn {A} s.
Arguments OutOfFuel {A}.

(** How a pure call ends: with a value, or with a thrown error. *)
Inductive Completion (A : Type) :=
| Normal (a : A)
| Abrupt.
Arguments Normal {A} a.
Arguments Abrupt {A}.

(** ** The host

    What the class takes from outside the repository's sources: the two
    members of the enum [PorterContext] it names (declared in [porter.model]),
    the manifest, the [pathname] of [new URL(url)] ([None] when the
    constructor throws) and the behaviour of the subscribed handlers. *)
Class Host := {
  PorterContext_ContentScript : PorterContext;
  PorterContext_Unknown : PorterContext;
  getManifest : Manifest;
  URL_pathname : string -> option string;
  invoke : Handler -> EventArgs -> State -> Result unit
}.

(** ** The class [AgentManager] *)

Section Registry.
Context {host : Host}.

(** [constructor]: three empty maps but for the three event names. *)
Definition AgentManager_new : State :=
  {| agents := [];
     agentsInfo := [];
     eventHandlers :=
       [("agentSetup", []); ("agentMessage", []); ("agentDisconnect", [])];
     emitted := [];
     invoked := [];
     listeners := [] |}.

(** *** The event hub *)

(** [on(event, handler)]. *)
Definition on (event : string) (handler : Handler) (s : State) : State :=
  match JsMap.get event (eventHandlers s) with
  | Some handlers =>
      with_eventHandlers
        (JsMap.set event (JsSet.add Nat.eqb handler handlers) (eventHandlers s)) s
  | None => s
  end.

(** [handlers.forEach(handler => handler(...args))] from the [i]-th member
    on. The set is live: a member added while the loop runs is visited too,
    so the loop reads the set of the current state at each step, and [fuel]
    bounds the number of invocations. *)
Fixpoint forEach (fuel i : nat) (event : string) (args : EventArgs) (s : State)
  : Result unit :=
  match JsMap.get event (eventHandlers s) with
  | None => Ok tt s
  | Some handlers =>
      match nth_error handlers i with
      | None => Ok tt s
      | Some handler =>
          match fuel with
          | O => OutOfFuel
          | S fuel' =>
              match invoke handler args
                      (with_invoked (invoked s ++ [(handler, args)]) s) with
              | Ok _ s' => forEach fuel' (S i) event args s'
              | Exn s' => Exn s'
              | OutOfFuel => OutOfFuel
              end
          end
      end
  end.

(** [emit(event, ...args)]. *)
Definition emit (fuel : nat) (event : string) (args : EventArgs) (s : State)
  : Result unit :=
  forEach fuel 0 event args (with_emitted (emitted s ++ [(event, args)]) s).

(** *** Classification *)

Definition pageMatcher (path : option string) (fallback : string) : string :=
  let page := Js.or_string path "" in
  if Js.truthy_string page then Js.split_pop page else fallback.

(** [pageMatchers], in the order [Object.entries] lists them. *)
Definition pageMatchers : list (string * string) :=
  let manifest := getManifest in
  [ ("sidepanel", pageMatcher (side_panel_default_path manifest) "sidepanel.html");
    ("options", pageMatcher (options_page manifest) "options.html");
    ("popup", pageMatcher (action_default_popup manifest) "popup.html");
    ("devtools", pageMatcher (devtools_page manifest) "devtools.html");
    ("newtab", pageMatcher (chrome_url_overrides_newtab manifest) "newtab.html");
    ("bookmarks", pageMatcher (chrome_url_overrides_bookmarks manifest) "bookmarks.html");
    ("history", pageMatcher (chrome_url_overrides_history manifest) "history.html") ].

(** [sender.tab?.id]. *)
Definition sender_tab_id (sender : MessageSender) : option Z :=
  match tab sender with
  | Some t => tab_id t
  | None => None
  end.

Definition identifyConnectionSource (port : Port)
  : Completion (option ConnectionSource) :=
  match sender port with
  | None => Normal None
  | Some sender =>
      let url_truthy :=
        match url sender with Some u => Js.truthy_string u | None => false end in
      let url_extension :=
        match url sender with
        | Some u => Js.includes "extension://" u
        | None => false
        end in
      if match tab sender with Some _ => true | None => false end
         && url_truthy && negb url_extension
      then
        (* Content scripts (web pages) *)
        Normal (Some {| source_context := PorterContext_ContentScript;
                        source_tabId := sender_tab_id sender;
                        source_frameId := Some (Js.or_number (sender_frameId sender) 0);
                        source_url := url sender;
                        source_portName := name port |})
      else if url_truthy && url_extension
      then
        (* Extension pages *)
        match URL_pathname (Js.or_string (url sender) "") with
        | None => Abrupt
        | Some urlPath =>
            let filename := Js.split_pop urlPath in
            let found :=
              find (fun entry => snd entry =? filename) pageMatchers in
            Normal (Some {| source_context :=
                              match found with
                              | Some (pageType, _) => pageType
                              | None => PorterContext_Unknown
                              end;
                            source_tabId := Some (Js.or_number (sender_tab_id sender) 0);
                            source_frameId := Some (Js.or_number (sender_frameId sender) 0);
                            source_url := url sender;
                            source_portName := name port |})
        end
      else
        (* Fallback for unknown sources *)
        Normal (Some {| source_context := PorterContext_Unknown;
                        source_tabId := Some 0%Z;
                        source_frameId := None;
                        source_url := url sender;
                        source_portName := name port |})
  end.

(** *** Read accessors *)

Definition same_location (a b : BrowserLocation) : bool :=
  (context a =? context b) && (tabId a =? tabId b)%Z && (frameId a =? frameId b)%Z.

Definition getAgentByLocation (loc : BrowserLocation) (s : State) : option Agent :=
  match find (fun entry => same_location (location (snd entry)) loc) (agentsInfo s) with
  | None => None
  | Some infoEntry =>
      let agentId := fst infoEntry in
      match JsMap.get agentId (agents s), JsMap.get agentId (agentsInfo s) with
      | Some portSet, Some info =>
          match portSet with
          | [] => None
          | _ => Some {| ports := portSet; info := info |}
          end
      | _, _ => None
      end
  end.

(** [{ ports: Array.from(this.agents.get(key) || []), info: value }]. *)
Definition agent_of_entry (s : State) (entry : AgentId * AgentInfo) : Agent :=
  {| ports := match JsMap.get (fst entry) (agents s) with
              | Some portSet => portSet
              | None => []
              end;
     info := snd entry |}.

Definition getAgentsByContext (c : PorterContext) (s : State) : list Agent :=
  map (agent_of_entry s)
      (filter (fun entry => context (location (snd entry)) =? c) (agentsInfo s)).

Definition getAllAgents (s : State) : list Agent :=
  map (agent_of_entry s) (agentsInfo s).

(** The filter of [queryAgents]: a field of [loc] is tested for truthiness
    before it is compared. *)
Definition query_matches (loc : PartialLocation) (value : AgentInfo) : bool :=
  let hasContext :=
    match partial_context loc with
    | Some c => if Js.truthy_string c then context (location value) =? c else true
    | None => true
    end in
  let hasTabId :=
    match partial_tabId loc with
    | Some t => if Js.truthy_number t then (tabId (location value) =? t)%Z else true
    | None => true
    end in
  let hasFrameId :=
    match partial_frameId loc with
    | Some f => if Js.truthy_number f then (frameId (location value) =? f)%Z else true
    | None => true
    end in
  hasContext && hasTabId && hasFrameId.

Definition queryAgents (loc : PartialLocation) (s : State) : list Agent :=
  map (agent_of_entry s)
      (filter (fun entry => query_matches loc (snd entry)) (agentsInfo s)).

Definition getAgentById (agentId : AgentId) (s : State) : option Agent :=
  match JsMap.get agentId (agents s), JsMap.get agentId (agentsInfo s) with
  | Some portSet, Some info => Some {| ports := portSet; info := info |}
  | _, _ => None
  end.

Definition getPortsByAgentId (agentId : AgentId) (s : State) : list Port :=
  match JsMap.get agentId (agents s) with
  | Some portSet => portSet
  | None => []
  end.

Definition getAllAgentsInfo (s : State) : list AgentInfo :=
  JsMap.values (agentsInfo s).

Definition hasPort (port : Port) (s : State) : bool :=
  existsb (fun entry => existsb (fun p => name p =? name port) (snd entry))
          (agents s).

(** *** Mutators *)

(** The location [addAgent] looks an agent up under and stores in a new
    agent's info: the classified context, [tabId || -1] and
    [frameId || 0]. *)
Definition location_of_source (connectionSource : ConnectionSource)
  : BrowserLocation :=
  {| context := source_context connectionSource;
     tabId := Js.or_number (source_tabId connectionSource) (-1);
     frameId := Js.or_number (source_frameId connectionSource) 0 |}.

(** [addAgent(port)]; [uuid] is what [uuidv4()] returns if it is called and
    [now] what [Date.now()] returns. The filter [tabAgentsInfo] of the
    source only feeds a log line. *)
Definition addAgent (fuel : nat) (port : Port) (uuid : AgentId) (now : Z)
           (s : State) : Result (option AgentId) :=
  match identifyConnectionSource port with
  | Abrupt => Exn s
  | Normal None => Ok None s
  | Normal (Some connectionSource) =>
      let loc := location_of_source connectionSource in
      let existing :=
        match getAgentByLocation loc s with
        | Some agent => Some (id (info agent))
        | None => None
        end in
      let agentId := Js.or_string existing uuid in
      (* Maintain a set of ports per agent id and add this port to the set. *)
      let agents1 :=
        if JsMap.has agentId (agents s) then agents s
        else JsMap.set agentId [] (agents s) in
      let agents2 :=
        match JsMap.get agentId agents1 with
        | Some portSet =>
            JsMap.set agentId (JsSet.add same_port port portSet) agents1
        | None => agents1
        end in
      let agentInfo :=
        match JsMap.get agentId (agentsInfo s) with
        | Some existingAgentInfo =>
            {| id := id existingAgentInfo;
               location := location existingAgentInfo;
               createdAt := createdAt existingAgentInfo;
               lastActiveAt := now |}
        | None =>
            {| id := agentId; location := loc;
               createdAt := now; lastActiveAt := now |}
        end in
      let s1 :=
        with_listeners
          (listeners s ++ [OnMessage port agentId; OnDisconnect port agentId])
          (with_agentsInfo (JsMap.set agentId agentInfo (agentsInfo s))
             (with_agents agents2 s)) in
      match emit fuel "agentSetup" (AgentSetupArgs agentInfo port) s1 with
      | Ok _ s2 => Ok (Some agentId) s2
      | Exn s2 => Exn s2
      | OutOfFuel => OutOfFuel
      end
  end.

(** [removeAgent(agentId)]. *)
Definition removeAgent (agentId : AgentId) (s : State) : State :=
  if JsMap.has agentId (agents s) && JsMap.has agentId (agentsInfo s)
  then with_agentsInfo (JsMap.delete agentId (agentsInfo s))
         (with_agents (JsMap.delete agentId (agents s)) s)
  else s.

(** [removePortFromAgent(agentId, port)]: what the listener attached to
    [port.onDisconnect] runs. *)
Definition removePortFromAgent (fuel : nat) (agentId : AgentId) (port : Port)
           (s : State) : Result unit :=
  match JsMap.get agentId (agents s) with
  | None => Ok tt s
  | Some portSet =>
      let info := JsMap.get agentId (agentsInfo s) in
      let remaining := JsSet.delete same_port port portSet in
      let s1 := with_agents (JsMap.set agentId remaining (agents s)) s in
      (* If ports remain, do not remove the agent yet. *)
      if (0 <? length remaining)%nat then Ok tt s1
      else
        (* No ports remain: remove agent and emit disconnect *)
        let s2 := with_agents (JsMap.delete agentId (agents s1)) s1 in
        match info with
        | Some agentInfo =>
            emit fuel "agentDisconnect" (AgentDisconnectArgs agentInfo)
                 (with_agentsInfo (JsMap.delete agentId (agentsInfo s2)) s2)
        | None => Ok tt s2
        end
  end.

(** *** Sequences of operations *)

Inductive Operation :=
| AddAgent (port : Port) (uuid : AgentId) (now : Z)
| RemoveAgent (agentId : AgentId)
| RemovePortFromAgent (agentId : AgentId) (port : Port)
| On (event : string) (handler : Handler).

(** The state one operation leaves: a call that throws leaves the state it
    threw in ([None]: the handler loop ran out of fuel). *)
Definition state_after {A : Type} (r : Result A) : option State :=
  match r with
  | Ok _ s => Some s
  | Exn s => Some s
  | OutOfFuel => None
  end.

Definition perform (fuel : nat) (op : Operation) (s : State) : option State :=
  match op with
  | AddAgent port uuid now => state_after (addAgent fuel port uuid now s)
  | RemoveAgent agentId => Some (removeAgent agentId s)
  | RemovePortFromAgent agentId port =>
      state_after (removePortFromAgent fuel agentId port s)
  | On event handler => Some (on event handler s)
  end.

Fixpoint perform_all (fuel : nat) (ops : list Operation) (s : State)
  : option State :=
  match ops with
  | [] => Some s
  | op :: rest =>
      match perform fuel op s with
      | Some s' => perform_all fuel rest s'
      | None => None
      end
  end.

(** [ports.map(port => addAgent(port))]: the ids returned, in order. *)
Fixpoint addAgents (fuel : nat) (calls : list (Port * AgentId * Z)) (s : State)
  : Result (list (option AgentId)) :=
  match calls with
  | [] => Ok [] s
  | (port, uuid, now) :: rest =>
      match addAgent fuel port uuid now s with
      | Ok r s1 =>
          match addAgents fuel rest s1 with
          | Ok rs s2 => Ok (r :: rs) s2
          | Exn s2 => Exn s2
          | OutOfFuel => OutOfFuel
          end
      | Exn s1 => Exn s1
      | OutOfFuel => OutOfFuel
      end
  end.

End Registry.

(** ** The vocabulary of the properties *)

Section Vocabulary.
Context {host : Host}.

(** The location [addAgent] files a port under: the identity key. *)
Definition identityKey (port : Port) : Completion (option BrowserLocation) :=
  match identifyConnectionSource port with
  | Abrupt => Abrupt
  | Normal None => Normal None
  | Normal (Some connectionSource) =>
      Normal (Some (location_of_source connectionSource))
  end.

(** No agent of the registry is at [loc]. *)
Definition vacant (loc : BrowserLocation) (s : State) : Prop :=
  forall agentId agentInfo,
    In (agentId, agentInfo) (agentsInfo s) ->
    same_location (location agentInfo) loc = false.

(** [uuid] is no key of the registry. *)
Definition fresh (uuid : AgentId) (s : State) : Prop :=
  JsMap.get uuid (agents s) = None /\ JsMap.get uuid (agentsInfo s) = None.

(** The handlers subscribed to [event]. *)
Definition subscribers (event : string) (s : State) : list Handler :=
  match JsMap.get event (eventHandlers s) with
  | Some handlers => handlers
  | None => []
  end.

(** A handler that returns and leaves the registry as it found it. *)
Definition returns_normally (h : Handler) : Prop :=
  forall args s, invoke h args s = Ok tt s.

(** A handler that throws and leaves the registry as it found it. *)
Definition always_throws (h : Handler) : Prop :=
  forall args s, invoke h args s = Exn s.

(** A handler that does not call back into the registry. *)
Definition leaves_state (h : Handler) : Prop :=
  forall args s, invoke h args s = Ok tt s \/ invoke h args s = Exn s.

(** The handlers of [event] return normally and [fuel] covers them. *)
Definition quiet (event : string) (fuel : nat) (s : State) : Prop :=
  (forall h, In h (subscribers event s) -> returns_normally h) /\
  (length (subscribers event s) <= fuel)%nat.

(** What [emit] leaves when the handlers of [event] are quiet: the call is
    recorded, every subscriber is invoked once, in subscription order, and
    the maps are untouched. *)
Definition after_emit (event : string) (args : EventArgs) (s : State) : State :=
  with_invoked
    (invoked s ++ map (fun h => (h, args)) (subscribers event s))%list
    (with_emitted (emitted s ++ [(event, args)])%list s).

(** The id [addAgent] settles on for a port of location [loc]: that of the
    agent already there, or the new [uuid]. *)
Definition resolved_id (loc : BrowserLocation) (uuid : AgentId) (s : State)
  : AgentId :=
  Js.or_string
    match getAgentByLocation loc s with
    | Some agent => Some (id (info agent))
    | None => None
    end
    uuid.

(** The info of an agent created at [loc]. *)
Definition new_agentInfo (agentId : AgentId) (loc : BrowserLocation) (now : Z)
  : AgentInfo :=
  {| id := agentId; location := loc; createdAt := now; lastActiveAt := now |}.

(** [agentInfo.lastActiveAt = now]. *)
Definition touched (agentInfo : AgentInfo) (now : Z) : AgentInfo :=
  {| id := id agentInfo; location := location agentInfo;
     createdAt := createdAt agentInfo; lastActiveAt := now |}.

(** The state a successful [addAgent] leaves when the handlers of
    [agentSetup] are quiet: the agent [agentId] has the ports [portSet] and
    the info [agentInfo], two listeners are attached to [port] and
    [agentSetup] was emitted once. *)
Definition registered (port : Port) (agentId : AgentId) (portSet : list Port)
           (agentInfo : AgentInfo) (s : State) : State :=
  after_emit "agentSetup" (AgentSetupArgs agentInfo port)
    (with_listeners
       (listeners s ++ [OnMessage port agentId; OnDisconnect port agentId])%list
       (with_agentsInfo (JsMap.set agentId agentInfo (agentsInfo s))
          (with_agents (JsMap.set agentId portSet (agents s)) s))).

(** No event has more than [n] subscribers. *)
Definition bounded (n : nat) (s : State) : Prop :=
  forall event hs,
    JsMap.get event (eventHandlers s) = Some hs -> (length hs <= n)%nat.

(** The two maps hold the same ids. *)
Definition index_consistent (s : State) : Prop :=
  forall agentId,
    JsMap.has agentId (agents s) = JsMap.has agentId (agentsInfo s).

(** Every handler, whatever it does, keeps the two maps on the same ids. *)
Definition handlers_keep_index : Prop :=
  forall h args s,
    index_consistent s ->
    match invoke h args s with
    | Ok _ s' => index_consistent s'
    | Exn s' => index_consistent s'
    | OutOfFuel => True
    end.

(** The info map as the class builds it: unique keys, each info filed under
    its own id, and no empty id. *)
Definition well_formed (s : State) : Prop :=
  NoDup (JsMap.keys (agentsInfo s)) /\
  forall agentId agentInfo,
    In (agentId, agentInfo) (agentsInfo s) ->
    id agentInfo = agentId /\ agentId <> "".

(** No read accessor shows an agent of id [agentId]. *)
Definition gone (agentId : AgentId) (s : State) : Prop :=
  getAgentById agentId s = None /\
  getPortsByAgentId agentId s = [] /\
  (forall a, In a (getAllAgents s) -> id (info a) <> agentId) /\
  (forall i, In i (getAllAgentsInfo s) -> id i <> agentId) /\
  (forall c a, In a (getAgentsByContext c s) -> id (info a) <> agentId) /\
  (forall q a, In a (queryAgents q s) -> id (info a) <> agentId) /\
  (forall loc a, getAgentByLocation loc s = Some a -> id (info a) <> agentId).

End Vocabulary.

(** ** A host and ports for the examples *)

Module Sample.

Fixpoint after_scheme (s : string) : option string :=
  if String.prefix "://" s then Some (String.substring 3 (String.length s - 3) s)
  else match s with
       | EmptyString => None
       | String _ rest => after_scheme rest
       end.

Fixpoint from_first_slash (s : string) : string :=
  match s with
  | EmptyString => ""
  | String c rest => if Ascii.eqb c "/"%char then s else from_first_slash rest
  end.

(** The path of an absolute URL without query or fragment. *)
Definition pathname (u : string) : option string :=
  match after_scheme u with
  | Some rest => Some (from_first_slash rest)
  | None => None
  end.

Definition manifest : Manifest :=
  {| side_panel_default_path := None; options_page := None;
     action_default_popup := None; devtools_page := None;
     chrome_url_overrides_newtab := None;
     chrome_url_overrides_bookmarks := None;
     chrome_url_overrides_history := None |}.

(** Handlers with an even number return, those with an odd number throw;
    none calls back into the registry. *)
Definition host : Host :=
  {| PorterContext_ContentScript := "contentscript";
     PorterContext_Unknown := "unknown";
     getManifest := manifest;
     URL_pathname := pathname;
     invoke := fun h _ s => if Nat.even h then Ok tt s else Exn s |}.

(** A content-script port of tab [t] and frame [f]. *)
Definition page_port (r : nat) (t f : Z) : Port :=
  {| ref := r; name := "porter";
     sender := Some {| tab := Some {| tab_id := Some t |};
                       url := Some "http://example.com";
                       sender_frameId := Some f |} |}.

(** A port whose sender carries neither tab nor URL. *)
Definition bare_port (r : nat) : Port :=
  {| ref := r; name := "porter";
     sender := Some {| tab := None; url := None; sender_frameId := None |} |}.

(** A port without sender. *)
Definition anonymous_port (r : nat) : Port :=
  {| ref := r; name := "porter"; sender := None |}.

(** The registry after construction and one subscription to each of
    [agentSetup] and [agentDisconnect]. *)
Definition subscribed : State :=
  on "agentDisconnect" 4
     (on "agentSetup" 2 AgentManager_new).

Definition state_of {A : Type} (r : Result A) (otherwise : State) : State :=
  match r with
  | Ok _ s => s
  | Exn s => s
  | OutOfFuel => otherwise
  end.

(** [subscribed] after one port of tab 7, frame 5 was added. *)
Definition one_agent : State :=
  state_of (addAgent (host := host) 1 (page_port 1 7 5) "a1" 100 subscribed)
           subscribed.

(** [one_agent] after a second port of the same tab and frame was added. *)
Definition two_ports : State :=
  state_of (addAgent (host := host) 1 (page_port 2 7 5) "a2" 200 one_agent)
           one_agent.

(** Two subscriptions to [agentDisconnect]: handler 1 throws, handler 2
    returns. *)
Definition thrower_first : State :=
  on "agentDisconnect" 2
     (on "agentDisconnect" 1 AgentManager_new).

Definition some_info : AgentInfo :=
  {| id := "a1";
     location := {| context := "contentscript"; tabId := 7; frameId := 5 |};
     createdAt := 100; lastActiveAt := 100 |}.

(** Three ports of pairwise distinct locations, with the uuid and the time
    of their admission. *)
Definition three_calls : list (Port * string * Z) :=
  [ (page_port 1 7 0, "a1", 100%Z);
    (page_port 2 7 1, "a2", 101%Z);
    (page_port 3 8 0, "a3", 102%Z) ].

Definition three_keys : list BrowserLocation :=
  [ {| context := "contentscript"; tabId := 7; frameId := 0 |};
    {| context := "contentscript"; tabId := 7; frameId := 1 |};
    {| context := "contentscript"; tabId := 8; frameId := 0 |} ].

(** A life of the registry: subscriptions, two ports of one location, the
    disconnection of the first and a forced removal. *)
Definition script : list Operation :=
  [ On "agentSetup" 2;
    On "agentDisconnect" 1;
    AddAgent (page_port 1 7 5) "a1" 100;
    AddAgent (page_port 2 7 5) "a2" 200;
    AddAgent (bare_port 3) "a3" 300;
    RemovePortFromAgent "a1" (page_port 1 7 5);
    RemoveAgent "a3";
    RemovePortFromAgent "a1" (page_port 2 7 5) ].

End Sample.

(** ** The vocabulary of the registry's invariants *)

(** Every agent of the info map has a port set with a port in it. *)
Definition ports_nonempty (s : State) : Prop :=
  forall agentId agentInfo,
    In (agentId, agentInfo) (agentsInfo s) ->
    exists p portSet, JsMap.get agentId (agents s) = Some (p :: portSet).

(** No two agents are at one location. *)
Definition unique_locations (s : State) : Prop :=
  NoDup (map (fun entry => location (snd entry)) (agentsInfo s)).

(** No agent is at tab id 0. *)
Definition no_tab_zero (s : State) : Prop :=
  forall agentId agentInfo,
    In (agentId, agentInfo) (agentsInfo s) -> tabId (location agentInfo) <> 0%Z.

(** The registry as the class keeps it: a well-formed info map, no agent
    without port and no location with two agents. *)
Definition sound (s : State) : Prop :=
  well_formed s /\ ports_nonempty s /\ unique_locations s.

(** [uuidv4()] never returned the empty string. *)
Definition uuids_nonempty (ops : list Operation) : Prop :=
  Forall (fun op => match op with
                    | AddAgent _ uuid _ => uuid <> ""
                    | _ => True
                    end) ops.


(** A reference denotes one object: a port of the registry with the identity
    of [port] is [port]. *)
Definition same_objects (port : Port) (s : State) : Prop :=
  forall agentId portSet q,
    In (agentId, portSet) (agents s) ->
    In q portSet -> ref q = ref port -> q = port.

(** The contexts [identifyConnectionSource] can return. *)
Definition known_contexts {host : Host} : list PorterContext :=
  [ PorterContext_ContentScript; PorterContext_Unknown;
    "sidepanel"; "options"; "popup"; "devtools"; "newtab"; "bookmarks";
    "history" ].

(** ** More sample data *)

Module Scenario.

(** A host whose [URL] constructor accepts only [chrome-extension:] URLs. *)
Definition strict_host : Host :=
  {| PorterContext_ContentScript := "contentscript";
     PorterContext_Unknown := "unknown";
     getManifest := Sample.manifest;
     URL_pathname :=
       fun u => if String.prefix "chrome-extension://" u
                then Sample.pathname u else None;
     invoke := fun h _ s => if Nat.even h then Ok tt s else Exn s |}.

(** A port of an extension page. *)
Definition extension_port (r : nat) (u : string) : Port :=
  {| ref := r; name := "porter";
     sender := Some {| tab := None; url := Some u; sender_frameId := None |} |}.

(** Another object with the name of [Sample.page_port 1 7 5]. *)
Definition namesake : Port :=
  {| ref := 99; name := "porter"; sender := None |}.

(** The registry run through [Sample.script] but for its last two steps. *)
Definition busy : State :=
  match perform_all (host := Sample.host) 8 (firstn 5 Sample.script)
          AgentManager_new with
  | Some s => s
  | None => AgentManager_new
  end.

Definition page_key : BrowserLocation :=
  {| context := "contentscript"; tabId := 7; frameId := 5 |}.

(** The agent of [busy] at [page_key]. *)
Definition agent_a1 : Agent :=
  {| ports := [Sample.page_port 1 7 5; Sample.page_port 2 7 5];
     info := {| id := "a1"; location := page_key;
                createdAt := 100; lastActiveAt := 200 |} |}.

(** A URL no [URL] constructor accepts. *)
Definition rejected_url : string := "see extension://x".

(** The registry after construction and the subscription of handler 1,
    which throws, to [agentSetup]. *)
Definition setup_thrower : State := on "agentSetup" 1 AgentManager_new.

(** The agent of [busy] that has one port. *)
Definition info_a3 : AgentInfo :=
  {| id := "a3";
     location := {| context := "unknown"; tabId := -1; frameId := 0 |};
     createdAt := 300; lastActiveAt := 300 |}.

End Scenario.

(** ** Facts about maps and sets *)

Module JsMapFacts.
Section WithValue.
Context {V : Type}.
Implicit Types (m : list (string * V)) (k : string) (v : V).

Lemma get_set_same k v m : JsMap.get k (JsMap.set k v m) = Some v.
Proof.
  induction m as [|[k' v'] m IH]; simpl.
  - now rewrite String.eqb_refl.
  - destruct (String.eqb_spec k' k) as [->|Hne]; simpl.
    + now rewrite String.eqb_refl.
    + apply String.eqb_neq in Hne. now rewrite Hne.
Qed.

Lemma get_set_other k k' v m :
  k <> k' -> JsMap.get k (JsMap.set k' v m) = JsMap.get k m.
Proof.
  intros Hne. induction m as [|[k0 v0] m IH]; simpl.
  - destruct (String.eqb_spec k' k); [congruence|reflexivity].
  - destruct (String.eqb_spec k0 k') as [->|Hne0]; simpl.
    + destruct (String.eqb_spec k' k); [congruence|reflexivity].
    + now rewrite IH.
Qed.

Lemma has_set k k' v m :
  JsMap.has k (JsMap.set k' v m) = (k =? k') || JsMap.has k m.
Proof.
  unfold JsMap.has. destruct (String.eqb_spec k k') as [->|Hne]; simpl.
  - now rewrite get_set_same.
  - now rewrite get_set_other.
Qed.

Lemma get_delete_same k m : JsMap.get k (JsMap.delete k m) = None.
Proof.
  induction m as [|[k' v'] m IH]; simpl; [reflexivity|].
  destruct (String.eqb_spec k' k) as [->|Hne]; simpl; [exact IH|].
  apply String.eqb_neq in Hne. now rewrite Hne.
Qed.

Lemma get_delete_other k k' m :
  k <> k' -> JsMap.get k (JsMap.delete k' m) = JsMap.get k m.
Proof.
  intros Hne. induction m as [|[k0 v0] m IH]; simpl; [reflexivity|].
  destruct (String.eqb_spec k0 k') as [->|Hne0]; simpl.
  - destruct (String.eqb_spec k' k); [congruence|exact IH].
  - now rewrite IH.
Qed.

Lemma has_delete k k' m :
  JsMap.has k (JsMap.delete k' m) = negb (k =? k') && JsMap.has k m.
Proof.
  unfold JsMap.has. destruct (String.eqb_spec k k') as [->|Hne]; simpl.
  - now rewrite get_delete_same.
  - now rewrite get_delete_other.
Qed.

Lemma get_In k v m : JsMap.get k m = Some v -> In (k, v) m.
Proof.
  induction m as [|[k' v'] m IH]; simpl; [discriminate|].
  destruct (String.eqb_spec k' k) as [->|Hne]; intros H.
  - left. congruence.
  - right. now apply IH.
Qed.

Lemma get_None k m : JsMap.get k m = None <-> ~ In k (JsMap.keys m).
Proof.
  induction m as [|[k' v'] m IH]; simpl; [tauto|].
  destruct (String.eqb_spec k' k) as [->|Hne].
  - split; [discriminate|tauto].
  - rewrite IH. tauto.
Qed.

Lemma In_get k v m :
  NoDup (JsMap.keys m) -> In (k, v) m -> JsMap.get k m = Some v.
Proof.
  induction m as [|[k' v'] m IH]; simpl; [tauto|].
  intros Hnd [Heq|Hin]; inversion Hnd as [|? ? Hnotin Hnd']; subst.
  - inversion Heq; subst. now rewrite String.eqb_refl.
  - destruct (String.eqb_spec k' k) as [->|Hne]; [|now apply IH].
    exfalso. apply Hnotin. now apply (in_map fst) in Hin.
Qed.

Lemma set_fresh k v m : JsMap.get k m = None -> JsMap.set k v m = (m ++ [(k, v)])%list.
Proof.
  induction m as [|[k' v'] m IH]; simpl; [reflexivity|].
  destruct (String.eqb_spec k' k); [discriminate|].
  intros H. now rewrite IH.
Qed.

Lemma get_app_fresh k k' v m :
  k <> k' -> JsMap.get k (m ++ [(k', v)])%list = JsMap.get k m.
Proof.
  intros Hne. induction m as [|[k0 v0] m IH]; simpl.
  - destruct (String.eqb_spec k' k); [congruence|reflexivity].
  - now rewrite IH.
Qed.

Lemma In_delete k k' v m :
  In (k, v) (JsMap.delete k' m) -> In (k, v) m /\ k <> k'.
Proof.
  unfold JsMap.delete. rewrite filter_In. simpl. intros [Hin Hneq].
  split; [exact Hin|]. intros ->. now rewrite String.eqb_refl in Hneq.
Qed.

End WithValue.
End JsMapFacts.

Lemma skipn_nth_error {A : Type} (l : list A) (i : nat) (x : A) :
  nth_error l i = Some x -> skipn i l = x :: skipn (S i) l.
Proof.
  revert i. induction l as [|y l IH]; intros [|i]; simpl; try discriminate.
  - now intros [= ->].
  - intros H. now rewrite (IH _ H).
Qed.

Lemma with_invoked_same (s : State) : with_invoked (invoked s) s = s.
Proof. now destruct s. Qed.

(** ** The event hub *)

Section EventHub.
Context {host : Host}.

Lemma subscribers_get event s hs :
  JsMap.get event (eventHandlers s) = Some hs -> subscribers event s = hs.
Proof. unfold subscribers. now intros ->. Qed.

(** Handlers that return normally are all invoked, from the [i]-th on, in
    the order of the set. *)
Lemma forEach_quiet event args hs :
  (forall h, In h hs -> returns_normally h) ->
  forall fuel i s,
    JsMap.get event (eventHandlers s) = Some hs ->
    (length hs - i <= fuel)%nat ->
    forEach fuel i event args s =
    Ok tt (with_invoked
             (invoked s ++ map (fun h => (h, args)) (skipn i hs))%list s).
Proof.
  intros Hret fuel.
  induction fuel as [|fuel IH]; intros i s Hget Hfuel.
  - simpl. rewrite Hget.
    destruct (nth_error hs i) as [h|] eqn:Hnth.
    + assert (i < length hs)%nat by (apply nth_error_Some; congruence). lia.
    + apply nth_error_None in Hnth. rewrite skipn_all2 by exact Hnth.
      simpl. now rewrite app_nil_r, with_invoked_same.
  - simpl. rewrite Hget.
    destruct (nth_error hs i) as [h|] eqn:Hnth.
    + rewrite (Hret h (nth_error_In _ _ Hnth)).
      rewrite IH by (simpl; first [exact Hget | lia]).
      rewrite (skipn_nth_error _ _ _ Hnth). simpl.
      now rewrite <- app_assoc.
    + apply nth_error_None in Hnth. rewrite skipn_all2 by exact Hnth.
      simpl. now rewrite app_nil_r, with_invoked_same.
Qed.

Lemma emit_quiet fuel event args s :
  quiet event fuel s ->
  emit fuel event args s = Ok tt (after_emit event args s).
Proof.
  intros [Hret Hfuel]. unfold emit, after_emit, subscribers in *.
  destruct (JsMap.get event (eventHandlers s)) as [hs|] eqn:Hget.
  - rewrite (forEach_quiet event args hs Hret) by (simpl; first [exact Hget | lia]).
    reflexivity.
  - destruct fuel; simpl; rewrite Hget;
      unfold with_invoked, with_emitted; simpl; now rewrite app_nil_r.
Qed.

(** The loop stops at the first handler that throws. *)
Lemma forEach_throw event args before h after :
  (forall x, In x before -> returns_normally x) ->
  always_throws h ->
  forall fuel i s,
    JsMap.get event (eventHandlers s) = Some (before ++ h :: after)%list ->
    (i <= length before)%nat ->
    (length before - i < fuel)%nat ->
    forEach fuel i event args s =
    Exn (with_invoked
           (invoked s ++ map (fun x => (x, args)) (skipn i before ++ [h]))%list s).
Proof.
  intros Hret Hthrow fuel.
  induction fuel as [|fuel IH]; intros i s Hget Hi Hfuel; [lia|].
  simpl. rewrite Hget.
  destruct (Nat.eq_dec i (length before)) as [->|Hlt].
  - rewrite nth_error_app2 by lia. rewrite Nat.sub_diag. simpl.
    rewrite Hthrow. rewrite skipn_all. reflexivity.
  - assert (Hi' : (i < length before)%nat) by lia.
    rewrite nth_error_app1 by exact Hi'.
    destruct (nth_error before i) as [x|] eqn:Hnth;
      [|apply nth_error_None in Hnth; lia].
    rewrite (Hret x (nth_error_In _ _ Hnth)).
    rewrite IH by (simpl; first [exact Hget | lia]).
    rewrite (skipn_nth_error _ _ _ Hnth). simpl.
    now rewrite <- app_assoc.
Qed.

(** [emit] when the first handler that does not return throws: the call is
    recorded, the handlers up to that one are invoked, and [emit] throws. *)
Lemma emit_throw fuel event args s before h after :
  JsMap.get event (eventHandlers s) = Some (before ++ h :: after)%list ->
  (forall x, In x before -> returns_normally x) ->
  always_throws h ->
  (length before < fuel)%nat ->
  emit fuel event args s =
  Exn (with_invoked
         (invoked s ++ map (fun x => (x, args)) (before ++ [h]))%list
         (with_emitted (emitted s ++ [(event, args)])%list s)).
Proof.
  intros Hget Hret Hthrow Hfuel. unfold emit.
  now rewrite (forEach_throw event args before h after Hret Hthrow)
    by (simpl; first [exact Hget | lia]).
Qed.

End EventHub.

Module JsSetFacts.




End JsSetFacts.

Lemma set_set {V : Type} (k : string) (v w : V) (m : list (string * V)) :
  JsMap.set k v (JsMap.set k w m) = JsMap.set k v m.
Proof.
  induction m as [|[k' v'] m IH]; simpl.
  - now rewrite String.eqb_refl.
  - destruct (k' =? k) eqn:Heq; simpl.
    + now rewrite String.eqb_refl.
    + now rewrite Heq, IH.
Qed.

(** ** Subscription and publication *)

Section Subscription.
Context {host : Host}.



(** C8, as the code has it: [emit] invokes the handlers of an event
    synchronously in subscription order. When all of them return, all are
    invoked and [emit] returns. When one of them throws, the handlers
    subscribed after it are not invoked in that [emit], and the error
    leaves [emit] for its caller: there is no isolation per handler. *)
Theorem emit_stops_at_first_throw event args s fuel hs :
  JsMap.get event (eventHandlers s) = Some hs ->
  ((forall h, In h hs -> returns_normally h) ->
   (length hs <= fuel)%nat ->
   exists s',
     emit fuel event args s = Ok tt s' /\
     invoked s' = (invoked s ++ map (fun h => (h, args)) hs)%list) /\
  (forall before h after,
      hs = (before ++ h :: after)%list ->
      (forall x, In x before -> returns_normally x) ->
      always_throws h ->
      (length before < fuel)%nat ->
      exists s',
        emit fuel event args s = Exn s' /\
        invoked s' =
        (invoked s ++ map (fun x => (x, args)) (before ++ [h]))%list).
Proof.
  intros Hget. split.
  - intros Hret Hfuel. exists (after_emit event args s). split.
    + apply emit_quiet. split; rewrite (subscribers_get _ _ _ Hget); assumption.
    + unfold after_emit. now rewrite (subscribers_get _ _ _ Hget).
  - intros before h after -> Hret Hthrow Hfuel.
    unfold emit.
    rewrite (forEach_throw event args before h after Hret Hthrow)
      by (simpl; first [exact Hget | lia]).
    eexists. split; [reflexivity|]. reflexivity.
Qed.


End Subscription.

(** ** Admission *)

Section Admission.
Context {host : Host}.

Lemma quiet_same_handlers event fuel s s' :
  eventHandlers s' = eventHandlers s -> quiet event fuel s -> quiet event fuel s'.
Proof. unfold quiet, subscribers. now intros ->. Qed.

Lemma same_location_eq a b : same_location a b = true <-> a = b.
Proof.
  unfold same_location. rewrite !andb_true_iff, String.eqb_eq, !Z.eqb_eq.
  destruct a, b; simpl. split.
  - intros [[-> ->] ->]. reflexivity.
  - intros [= -> -> ->]. auto.
Qed.

Lemma same_location_refl a : same_location a a = true.
Proof. now apply same_location_eq. Qed.

(** [addAgent] on a port with a sender, when classification does not throw
    and the handlers of [agentSetup] are quiet. *)
Lemma addAgent_quiet fuel port uuid now s c :
  identifyConnectionSource port = Normal (Some c) ->
  quiet "agentSetup" fuel s ->
  let loc := location_of_source c in
  let agentId := resolved_id loc uuid s in
  addAgent fuel port uuid now s =
  Ok (Some agentId)
     (registered port agentId
        (JsSet.add same_port port (getPortsByAgentId agentId s))
        match JsMap.get agentId (agentsInfo s) with
        | Some existingAgentInfo => touched existingAgentInfo now
        | None => new_agentInfo agentId loc now
        end
        s).
Proof.
  intros Hsrc Hquiet loc agentId.
  unfold addAgent, getPortsByAgentId, JsMap.has. rewrite Hsrc. cbv zeta.
  change (location_of_source c) with loc.
  set (a := Js.or_string _ uuid).
  assert (Ha : a = agentId) by reflexivity.
  clearbody a. subst a.
  destruct (JsMap.get agentId (agents s)) as [portSet|] eqn:Hports;
    cbv iota;
    [rewrite Hports | rewrite JsMapFacts.get_set_same, set_set];
    (rewrite emit_quiet by (now apply (quiet_same_handlers _ _ s)));
    unfold registered;
    now destruct (JsMap.get agentId (agentsInfo s)).
Qed.

(** [addAgent] on a classified port when a handler of [agentSetup] throws:
    the agent is recorded, the listeners are attached, [agentSetup] is
    emitted, and the error leaves [addAgent]. *)
Lemma addAgent_throwing fuel port uuid now s c before h after :
  identifyConnectionSource port = Normal (Some c) ->
  JsMap.get "agentSetup" (eventHandlers s) = Some (before ++ h :: after)%list ->
  (forall x, In x before -> returns_normally x) ->
  always_throws h ->
  (length before < fuel)%nat ->
  let loc := location_of_source c in
  let agentId := resolved_id loc uuid s in
  let agentInfo :=
    match JsMap.get agentId (agentsInfo s) with
    | Some existingAgentInfo => touched existingAgentInfo now
    | None => new_agentInfo agentId loc now
    end in
  addAgent fuel port uuid now s =
  Exn (with_invoked
         (invoked s
            ++ map (fun x => (x, AgentSetupArgs agentInfo port)) (before ++ [h]))%list
         (with_emitted
            (emitted s ++ [("agentSetup", AgentSetupArgs agentInfo port)])%list
            (with_listeners
               (listeners s ++ [OnMessage port agentId; OnDisconnect port agentId])%list
               (with_agentsInfo (JsMap.set agentId agentInfo (agentsInfo s))
                  (with_agents
                     (JsMap.set agentId
                        (JsSet.add same_port port (getPortsByAgentId agentId s))
                        (agents s)) s))))).
Proof.
  intros Hsrc Hget Hret Hthrow Hfuel loc agentId agentInfo.
  unfold addAgent, getPortsByAgentId, JsMap.has. rewrite Hsrc. cbv zeta.
  change (location_of_source c) with loc.
  set (a := Js.or_string _ uuid).
  assert (Ha : a = agentId) by reflexivity.
  clearbody a. subst a.
  destruct (JsMap.get agentId (agents s)) as [portSet|] eqn:Hports;
    cbv iota;
    [rewrite Hports | rewrite JsMapFacts.get_set_same, set_set];
    (rewrite (emit_throw _ _ _ _ before h after) by (simpl; assumption));
    subst agentInfo;
    now destruct (JsMap.get agentId (agentsInfo s)).
Qed.

Lemma identityKey_source port key :
  identityKey port = Normal (Some key) ->
  exists c,
    identifyConnectionSource port = Normal (Some c) /\
    location_of_source c = key.
Proof.
  unfold identityKey.
  destruct (identifyConnectionSource port) as [[c|]|]; try discriminate.
  intros [= <-]. now exists c.
Qed.

Lemma find_vacant loc s :
  vacant loc s ->
  find (fun entry => same_location (location (snd entry)) loc) (agentsInfo s)
  = None.
Proof.
  unfold vacant. generalize (agentsInfo s) as l.
  induction l as [|[k i] l IH]; intros Hvac; simpl.
  - reflexivity.
  - rewrite (Hvac k i) by now left.
    apply IH. intros k' i' Hin. apply (Hvac k' i'). now right.
Qed.

Lemma resolved_id_vacant loc uuid s :
  vacant loc s -> resolved_id loc uuid s = uuid.
Proof.
  intros Hvac. unfold resolved_id, getAgentByLocation.
  now rewrite find_vacant.
Qed.

(** On a vacant location and with a fresh uuid, [addAgent] creates. *)
Lemma addAgent_creates fuel port uuid now s key :
  identityKey port = Normal (Some key) ->
  vacant key s ->
  fresh uuid s ->
  quiet "agentSetup" fuel s ->
  addAgent fuel port uuid now s =
  Ok (Some uuid) (registered port uuid [port] (new_agentInfo uuid key now) s).
Proof.
  intros Hkey Hvac [Hports Hinfo] Hquiet.
  destruct (identityKey_source _ _ Hkey) as [c [Hsrc <-]].
  rewrite (addAgent_quiet _ _ _ _ _ _ Hsrc Hquiet).
  rewrite (resolved_id_vacant _ _ _ Hvac).
  unfold getPortsByAgentId. now rewrite Hports, Hinfo.
Qed.

Lemma find_last {A : Type} (f : A -> bool) (l : list A) (x : A) :
  find f l = None -> f x = true -> find f (l ++ [x]) = Some x.
Proof.
  induction l as [|y l IH]; simpl; intros Hnone Hx.
  - now rewrite Hx.
  - destruct (f y); [discriminate|]. now apply IH.
Qed.


Lemma get_app_None {V : Type} (k : string) (m m' : list (string * V)) :
  JsMap.get k m = None -> JsMap.get k (m ++ m')%list = JsMap.get k m'.
Proof.
  induction m as [|[k' v'] m IH]; simpl; [reflexivity|].
  destruct (k' =? k); [discriminate|exact IH].
Qed.

(** The ports and ids of a list of [addAgent] calls. *)
Lemma addAgents_creates fuel calls keys :
  Forall2 (fun c k => identityKey (fst (fst c)) = Normal (Some k)) calls keys ->
  forall s,
    NoDup keys ->
    NoDup (map (fun c => snd (fst c)) calls) ->
    (forall k, In k keys -> vacant k s) ->
    (forall c, In c calls -> fresh (snd (fst c)) s) ->
    quiet "agentSetup" fuel s ->
    exists s',
      addAgents fuel calls s = Ok (map (fun c => Some (snd (fst c))) calls) s' /\
      agents s' =
      (agents s ++ map (fun c => (snd (fst c), [fst (fst c)])) calls)%list.
Proof.
  induction 1 as [|[[port uuid] now] key calls keys Hkey Hrest IH];
    intros s Hkeys Huuids Hvac Hfresh Hquiet.
  - exists s. simpl. now rewrite app_nil_r.
  - simpl in *.
    inversion Hkeys as [|? ? Hkey_new Hkeys']; subst.
    inversion Huuids as [|? ? Huuid_new Huuids']; subst.
    assert (Hf : fresh uuid s) by (apply (Hfresh (port, uuid, now)); now left).
    rewrite (addAgent_creates fuel port uuid now s key Hkey
               (Hvac key (or_introl eq_refl)) Hf Hquiet).
    set (agentInfo := new_agentInfo uuid key now).
    set (s1 := registered port uuid [port] agentInfo s).
    destruct Hf as [Hports Hinfo].
    assert (Hagents1 : agents s1 = (agents s ++ [(uuid, [port])])%list)
      by apply (JsMapFacts.set_fresh _ _ _ Hports).
    assert (HagentsInfo1 : agentsInfo s1 = (agentsInfo s ++ [(uuid, agentInfo)])%list)
      by apply (JsMapFacts.set_fresh _ _ _ Hinfo).
    destruct (IH s1) as [s' [Hrun Hagents']]; try assumption.
    + intros k Hk a i Hin. rewrite HagentsInfo1 in Hin.
      apply in_app_or in Hin. destruct Hin as [Hin|[[= <- <-]|[]]].
      * now apply (Hvac k (or_intror Hk) a i).
      * simpl. destruct (same_location key k) eqn:Hsame; [|reflexivity].
        apply same_location_eq in Hsame. now subst.
    + intros [[port' uuid'] now'] Hin. simpl.
      assert (Hne : uuid' <> uuid).
      { intros ->. apply Huuid_new.
        now apply (in_map (fun c => snd (fst c))) in Hin. }
      destruct (Hfresh _ (or_intror Hin)) as [Hp Hi]. simpl in Hp, Hi.
      split.
      * rewrite Hagents1. now rewrite JsMapFacts.get_app_fresh.
      * rewrite HagentsInfo1. now rewrite JsMapFacts.get_app_fresh.
    + exists s'. rewrite Hrun. split; [reflexivity|].
      rewrite Hagents', Hagents1. now rewrite <- app_assoc.
Qed.

(** C2: ports of pairwise distinct identity keys, added in turn where none
    of these keys had an agent and with the uuids new to the registry and
    pairwise distinct: every call returns an id, the ids returned are
    pairwise distinct, and each of these agents has exactly the one port it
    was created for. *)
Theorem addAgents_unique fuel calls keys s :
  Forall2 (fun c k => identityKey (fst (fst c)) = Normal (Some k)) calls keys ->
  NoDup keys ->
  NoDup (map (fun c => snd (fst c)) calls) ->
  (forall k, In k keys -> vacant k s) ->
  (forall c, In c calls -> fresh (snd (fst c)) s) ->
  quiet "agentSetup" fuel s ->
  exists returned s',
    addAgents fuel calls s = Ok returned s' /\
    length returned = length calls /\
    NoDup returned /\
    ~ In None returned /\
    forall port uuid now,
      In (port, uuid, now) calls ->
      In (Some uuid) returned /\ getPortsByAgentId uuid s' = [port].
Proof.
  intros Hkeys Hnd Huuids Hvac Hfresh Hquiet.
  destruct (addAgents_creates fuel calls keys Hkeys s Hnd Huuids Hvac Hfresh Hquiet)
    as [s' [Hrun Hagents]].
  exists (map (fun c => Some (snd (fst c))) calls), s'.
  split; [exact Hrun|]. split; [apply length_map|]. split; [|split].
  - rewrite <- (map_map (fun c => snd (fst c)) Some).
    apply Injective_map_NoDup; [|exact Huuids].
    intros x y [= ->]. reflexivity.
  - rewrite in_map_iff. intros [c [Hc _]]. discriminate.
  - intros port uuid now Hin. split.
    + apply in_map_iff. now exists (port, uuid, now).
    + unfold getPortsByAgentId. rewrite Hagents.
      destruct (Hfresh _ Hin) as [Hp _]. simpl in Hp.
      rewrite (get_app_None _ _ _ Hp).
      rewrite (JsMapFacts.In_get uuid [port]); [reflexivity| |].
      * unfold JsMap.keys. rewrite map_map. simpl. exact Huuids.
      * apply in_map_iff. now exists (port, uuid, now).
Qed.

End Admission.

(** ** Rejection and the fallback classification *)

Section Classification.
Context {host : Host}.

Lemma add_has_port (port : Port) (portSet : list Port) :
  JsSet.has same_port port (JsSet.add same_port port portSet) = true.
Proof.
  unfold JsSet.add. destruct (JsSet.has same_port port portSet) eqn:Hhas;
    [exact Hhas|].
  unfold JsSet.has. rewrite existsb_app. simpl.
  unfold same_port. now rewrite Nat.eqb_refl, orb_true_r.
Qed.

Lemma identifyConnectionSource_null port :
  identifyConnectionSource port = Normal None <-> sender port = None.
Proof.
  unfold identifyConnectionSource.
  destruct (sender port) as [sd|]; [|tauto].
  split; [|discriminate].
  repeat match goal with
         | |- context [if ?b then _ else _] => destruct b
         end;
    try discriminate.
  destruct (URL_pathname _); discriminate.
Qed.

(** C6, as the code has it: [addAgent] returns [undefined] exactly for a
    port without sender; it then leaves the registry as it was, with no
    agent created, no [agentSetup] emitted and no handler invoked. For a
    port with a sender, classification either throws (the [URL] constructor
    rejects the sender's URL), and [addAgent] throws with the registry
    untouched, or it yields a location. Then the agent is recorded and
    [agentSetup] is emitted exactly once, with the agent's info and the
    port: when the handlers of [agentSetup] return, each is invoked once, in
    subscription order, and [addAgent] returns the id; when one of them
    throws, the handlers up to that one are invoked and the error leaves
    [addAgent]. *)
Theorem addAgent_rejects_without_sender fuel port uuid now s :
  (sender port = None -> addAgent fuel port uuid now s = Ok None s) /\
  (forall s', addAgent fuel port uuid now s = Ok None s' -> sender port = None) /\
  (sender port <> None ->
   (identifyConnectionSource port = Abrupt \/
    exists c, identifyConnectionSource port = Normal (Some c)) /\
   (identifyConnectionSource port = Abrupt ->
    addAgent fuel port uuid now s = Exn s) /\
   (forall c,
       identifyConnectionSource port = Normal (Some c) ->
       exists agentId agentInfo,
         agentId = resolved_id (location_of_source c) uuid s /\
         (quiet "agentSetup" fuel s ->
          exists s',
            addAgent fuel port uuid now s = Ok (Some agentId) s' /\
            JsMap.get agentId (agentsInfo s') = Some agentInfo /\
            JsSet.has same_port port (getPortsByAgentId agentId s') = true /\
            emitted s' =
            (emitted s ++ [("agentSetup", AgentSetupArgs agentInfo port)])%list /\
            invoked s' =
            (invoked s
               ++ map (fun h => (h, AgentSetupArgs agentInfo port))
                      (subscribers "agentSetup" s))%list) /\
         (forall before h after,
             JsMap.get "agentSetup" (eventHandlers s)
             = Some (before ++ h :: after)%list ->
             (forall x, In x before -> returns_normally x) ->
             always_throws h ->
             (length before < fuel)%nat ->
             exists s',
               addAgent fuel port uuid now s = Exn s' /\
               JsMap.get agentId (agentsInfo s') = Some agentInfo /\
               JsSet.has same_port port (getPortsByAgentId agentId s') = true /\
               emitted s' =
               (emitted s ++ [("agentSetup", AgentSetupArgs agentInfo port)])%list /\
               invoked s' =
               (invoked s
                  ++ map (fun x => (x, AgentSetupArgs agentInfo port))
                         (before ++ [h]))%list))).
Proof.
  split; [|split].
  - intros Hnone. apply identifyConnectionSource_null in Hnone.
    unfold addAgent. now rewrite Hnone.
  - intros s' Hrun. apply identifyConnectionSource_null.
    unfold addAgent in Hrun.
    destruct (identifyConnectionSource port) as [[c|]|];
      [|reflexivity|discriminate].
    cbv zeta in Hrun.
    destruct (emit _ _ _ _) in Hrun; discriminate.
  - intros Hsender. split; [|split].
    + destruct (identifyConnectionSource port) as [[c|]|] eqn:Hsrc.
      * right. now exists c.
      * apply identifyConnectionSource_null in Hsrc. contradiction.
      * now left.
    + intros Habrupt. unfold addAgent. now rewrite Habrupt.
    + intros c Hsrc. eexists _, _. split; [reflexivity|]. split.
      * intros Hquiet.
        rewrite (addAgent_quiet _ _ _ _ _ _ Hsrc Hquiet).
        eexists. split; [reflexivity|]. split; [|split; [|split]].
        -- apply JsMapFacts.get_set_same.
        -- unfold getPortsByAgentId, registered. simpl.
           rewrite JsMapFacts.get_set_same. apply add_has_port.
        -- reflexivity.
        -- reflexivity.
      * intros before h after Hget Hret Hthrow Hfuel.
        rewrite (addAgent_throwing _ _ _ _ _ _ _ _ _ Hsrc Hget Hret Hthrow Hfuel).
        eexists. split; [reflexivity|]. split; [|split; [|split]].
        -- apply JsMapFacts.get_set_same.
        -- unfold getPortsByAgentId. simpl.
           rewrite JsMapFacts.get_set_same. apply add_has_port.
        -- reflexivity.
        -- reflexivity.
Qed.

Lemma getAgentByLocation_Some loc s a :
  well_formed s ->
  getAgentByLocation loc s = Some a ->
  location (info a) = loc /\
  id (info a) <> "" /\
  JsMap.get (id (info a)) (agentsInfo s) = Some (info a).
Proof.
  intros [Hnd Hwf]. unfold getAgentByLocation.
  destruct (find _ (agentsInfo s)) as [[k i]|] eqn:Hfind; [|discriminate].
  apply find_some in Hfind. destruct Hfind as [Hin Hsame]. simpl in *.
  rewrite (JsMapFacts.In_get _ _ _ Hnd Hin).
  destruct (Hwf k i Hin) as [Hid Hne].
  destruct (JsMap.get k (agents s)) as [[|p portSet]|];
    try discriminate.
  intros [= <-]. simpl. apply same_location_eq in Hsame.
  rewrite Hid. repeat split; try assumption.
  now apply JsMapFacts.In_get.
Qed.

(** The info [addAgent] stores is at the location the port was filed
    under, whether the agent is created or extended. *)
Lemma stored_location loc uuid now s :
  well_formed s ->
  fresh uuid s ->
  location
    match JsMap.get (resolved_id loc uuid s) (agentsInfo s) with
    | Some existingAgentInfo => touched existingAgentInfo now
    | None => new_agentInfo (resolved_id loc uuid s) loc now
    end = loc.
Proof.
  intros Hwf [_ Hfresh]. unfold resolved_id.
  destruct (getAgentByLocation loc s) as [a|] eqn:Hfound.
  - destruct (getAgentByLocation_Some _ _ _ Hwf Hfound) as [Hloc [Hne Hget]].
    unfold Js.or_string, Js.truthy_string.
    apply String.eqb_neq in Hne. rewrite Hne. simpl.
    now rewrite Hget.
  - simpl. now rewrite Hfresh.
Qed.

(** C9, as the code has it: a port whose sender has no URL is filed under
    the context [unknown], tab id -1 and frame id 0: the classifier's tab
    id 0 is replaced by the default of [tabId || -1]. The agent [addAgent]
    creates or extends for it is at that location. *)
Theorem addAgent_fallback_location fuel port uuid now s sd :
  sender port = Some sd ->
  url sd = None \/ url sd = Some "" ->
  well_formed s ->
  fresh uuid s ->
  quiet "agentSetup" fuel s ->
  identityKey port =
  Normal (Some {| context := PorterContext_Unknown;
                  tabId := -1; frameId := 0 |}) /\
  exists agentId agentInfo s',
    addAgent fuel port uuid now s = Ok (Some agentId) s' /\
    JsMap.get agentId (agentsInfo s') = Some agentInfo /\
    location agentInfo =
    {| context := PorterContext_Unknown; tabId := -1; frameId := 0 |}.
Proof.
  intros Hsender Hurl Hwf Hfresh Hquiet.
  assert (Hsrc : identifyConnectionSource port =
                 Normal (Some {| source_context := PorterContext_Unknown;
                                 source_tabId := Some 0%Z;
                                 source_frameId := None;
                                 source_url := url sd;
                                 source_portName := name port |})).
  { unfold identifyConnectionSource. rewrite Hsender.
    destruct Hurl as [-> | ->]; simpl; now rewrite ?andb_false_r. }
  split.
  - unfold identityKey. now rewrite Hsrc.
  - rewrite (addAgent_quiet _ _ _ _ _ _ Hsrc Hquiet).
    eexists _, _, _. split; [reflexivity|]. split.
    + apply JsMapFacts.get_set_same.
    + now apply (stored_location _ uuid now s Hwf Hfresh).
Qed.

End Classification.

(** ** Reference counting and forced removal *)

Section Lifecycle.
Context {host : Host}.

Lemma delete_absent port portSet :
  ~ In (ref port) (map ref portSet) ->
  JsSet.delete same_port port portSet = portSet.
Proof.
  induction portSet as [|q portSet IH]; simpl; intros Hnotin; [reflexivity|].
  unfold same_port at 1.
  destruct (Nat.eqb_spec (ref port) (ref q)) as [Heq|Hne]; simpl.
  - exfalso. apply Hnotin. left. now symmetry.
  - f_equal. apply IH. tauto.
Qed.

(** Deleting a member of a port set takes exactly one port away. *)
Lemma delete_member port portSet :
  NoDup (map ref portSet) ->
  JsSet.has same_port port portSet = true ->
  S (length (JsSet.delete same_port port portSet)) = length portSet.
Proof.
  induction portSet as [|q portSet IH]; simpl; intros Hnd Hhas; [discriminate|].
  inversion Hnd as [|? ? Hnotin Hnd']; subst.
  unfold same_port at 1 in Hhas. unfold same_port at 1.
  destruct (Nat.eqb_spec (ref port) (ref q)) as [Heq|Hne]; simpl in *.
  - fold (JsSet.delete same_port port portSet).
    rewrite delete_absent; [reflexivity|]. now rewrite Heq.
  - f_equal. now apply IH.
Qed.

Lemma gone_intro agentId s :
  JsMap.get agentId (agents s) = None ->
  (forall k i, In (k, i) (agentsInfo s) -> id i <> agentId) ->
  gone agentId s.
Proof.
  intros Hports Hinfos. unfold gone. repeat split.
  - unfold getAgentById. now rewrite Hports.
  - unfold getPortsByAgentId. now rewrite Hports.
  - unfold getAllAgents. intros a Ha. apply in_map_iff in Ha.
    destruct Ha as [[k i] [<- Hin]]. simpl. now apply (Hinfos k i).
  - unfold getAllAgentsInfo, JsMap.values. intros i Hi.
    apply in_map_iff in Hi. destruct Hi as [[k i'] [<- Hin]].
    now apply (Hinfos k i').
  - unfold getAgentsByContext. intros c a Ha. apply in_map_iff in Ha.
    destruct Ha as [[k i] [<- Hin]]. apply filter_In in Hin. simpl.
    now apply (Hinfos k i).
  - unfold queryAgents. intros q a Ha. apply in_map_iff in Ha.
    destruct Ha as [[k i] [<- Hin]]. apply filter_In in Hin. simpl.
    now apply (Hinfos k i).
  - unfold getAgentByLocation. intros loc a.
    destruct (find _ (agentsInfo s)) as [[k i]|]; [|discriminate]. simpl.
    destruct (JsMap.get k (agents s)) as [portSet|]; [|discriminate].
    destruct (JsMap.get k (agentsInfo s)) as [i'|] eqn:Hget;
      [|discriminate].
    destruct portSet as [|p portSet]; [discriminate|].
    intros [= <-]. simpl. apply JsMapFacts.get_In in Hget.
    now apply (Hinfos k i').
Qed.

(** C3: removing one port of an agent with more than one leaves the agent
    with one port less; nothing is emitted and no handler is invoked.
    Removing its last port takes the agent out of every read accessor and
    emits [agentDisconnect] exactly once, with the info the agent had: every
    handler of [agentDisconnect] is invoked once with that info, in
    subscription order. Should one of them throw, the agent is gone all the
    same, the event was emitted that once, and the handlers up to the one
    that threw were invoked. *)
Theorem removePortFromAgent_counts fuel s agentId port portSet agentInfo :
  JsMap.get agentId (agents s) = Some portSet ->
  JsMap.get agentId (agentsInfo s) = Some agentInfo ->
  JsSet.has same_port port portSet = true ->
  NoDup (map ref portSet) ->
  well_formed s ->
  ((1 < length portSet)%nat ->
   exists s',
     removePortFromAgent fuel agentId port s = Ok tt s' /\
     getAgentById agentId s' =
     Some {| ports := JsSet.delete same_port port portSet; info := agentInfo |} /\
     length (JsSet.delete same_port port portSet) = (length portSet - 1)%nat /\
     emitted s' = emitted s /\
     invoked s' = invoked s) /\
  (length portSet = 1%nat ->
   (quiet "agentDisconnect" fuel s ->
    exists s',
      removePortFromAgent fuel agentId port s = Ok tt s' /\
      gone agentId s' /\
      emitted s' =
      (emitted s ++ [("agentDisconnect", AgentDisconnectArgs agentInfo)])%list /\
      invoked s' =
      (invoked s
         ++ map (fun h => (h, AgentDisconnectArgs agentInfo))
                (subscribers "agentDisconnect" s))%list) /\
   (forall before h after,
       JsMap.get "agentDisconnect" (eventHandlers s)
       = Some (before ++ h :: after)%list ->
       (forall x, In x before -> returns_normally x) ->
       always_throws h ->
       (length before < fuel)%nat ->
       exists s',
         removePortFromAgent fuel agentId port s = Exn s' /\
         gone agentId s' /\
         emitted s' =
         (emitted s ++ [("agentDisconnect", AgentDisconnectArgs agentInfo)])%list /\
         invoked s' =
         (invoked s
            ++ map (fun x => (x, AgentDisconnectArgs agentInfo))
                   (before ++ [h]))%list)).
Proof.
  intros Hports Hinfo Hhas Hnd [_ Hwf].
  pose proof (delete_member port portSet Hnd Hhas) as Hlen.
  assert (Hgone :
            forall s',
              agents s' = JsMap.delete agentId
                            (JsMap.set agentId
                               (JsSet.delete same_port port portSet) (agents s)) ->
              agentsInfo s' = JsMap.delete agentId (agentsInfo s) ->
              gone agentId s').
  { intros s' Ha Hi. apply gone_intro.
    - rewrite Ha. apply JsMapFacts.get_delete_same.
    - rewrite Hi. intros k i Hin. apply JsMapFacts.In_delete in Hin.
      destruct Hin as [Hin Hne]. destruct (Hwf k i Hin) as [-> _]. exact Hne. }
  unfold removePortFromAgent. rewrite Hports, Hinfo. cbv zeta.
  split.
  - intros Hmany.
    destruct (Nat.ltb_spec 0 (length (JsSet.delete same_port port portSet)));
      [|lia].
    eexists. split; [reflexivity|]. split; [|split; [|split]].
    + unfold getAgentById. simpl.
      now rewrite JsMapFacts.get_set_same, Hinfo.
    + lia.
    + reflexivity.
    + reflexivity.
  - intros Hlast.
    destruct (Nat.ltb_spec 0 (length (JsSet.delete same_port port portSet)));
      [lia|].
    split.
    + intros Hquiet.
      rewrite emit_quiet by (now apply (quiet_same_handlers _ _ s)).
      eexists. split; [reflexivity|]. split; [|split; reflexivity].
      now apply Hgone.
    + intros before h after Hget Hret Hthrow Hfuel.
      rewrite (emit_throw _ _ _ _ before h after) by (simpl; assumption).
      eexists. split; [reflexivity|]. split; [|split; reflexivity].
      now apply Hgone.
Qed.

(** C5: [removeAgent] on a known id takes the agent out of both maps
    whatever ports it still has; it emits nothing, invokes no handler,
    touches no port and leaves every other agent as it was. *)
Theorem removeAgent_forced s agentId portSet agentInfo :
  JsMap.get agentId (agents s) = Some portSet ->
  JsMap.get agentId (agentsInfo s) = Some agentInfo ->
  agents (removeAgent agentId s) = JsMap.delete agentId (agents s) /\
  agentsInfo (removeAgent agentId s) = JsMap.delete agentId (agentsInfo s) /\
  getAgentById agentId (removeAgent agentId s) = None /\
  JsMap.has agentId (agents (removeAgent agentId s)) = false /\
  JsMap.has agentId (agentsInfo (removeAgent agentId s)) = false /\
  emitted (removeAgent agentId s) = emitted s /\
  invoked (removeAgent agentId s) = invoked s /\
  listeners (removeAgent agentId s) = listeners s /\
  eventHandlers (removeAgent agentId s) = eventHandlers s /\
  forall other,
    other <> agentId ->
    getAgentById other (removeAgent agentId s) = getAgentById other s /\
    getPortsByAgentId other (removeAgent agentId s) = getPortsByAgentId other s.
Proof.
  intros Hports Hinfo. unfold removeAgent, JsMap.has.
  rewrite Hports, Hinfo. simpl.
  repeat split; try reflexivity.
  - unfold getAgentById. simpl. now rewrite JsMapFacts.get_delete_same.
  - now rewrite JsMapFacts.get_delete_same.
  - now rewrite JsMapFacts.get_delete_same.
  - unfold getAgentById. simpl.
    now rewrite !JsMapFacts.get_delete_other.
  - unfold getPortsByAgentId. simpl.
    now rewrite JsMapFacts.get_delete_other.
Qed.

End Lifecycle.

(** ** Index consistency *)

Section Consistency.
Context {host : Host}.

Lemma index_consistent_same_maps s s' :
  agents s' = agents s -> agentsInfo s' = agentsInfo s ->
  index_consistent s -> index_consistent s'.
Proof. unfold index_consistent. now intros -> ->. Qed.

Lemma forEach_keeps_index event args :
  handlers_keep_index ->
  forall fuel i s,
    index_consistent s ->
    forall s', state_after (forEach fuel i event args s) = Some s' ->
               index_consistent s'.
Proof.
  intros Hkeep fuel.
  induction fuel as [|fuel IH]; intros i s Hs s'; simpl;
    destruct (JsMap.get event (eventHandlers s)) as [hs|];
    try (simpl; now intros [= <-]);
    destruct (nth_error hs i) as [h|];
    try (simpl; now intros [= <-]).
  pose proof (Hkeep h args (with_invoked (invoked s ++ [(h, args)])%list s))
    as Hh.
  destruct (invoke h args _) as [[] s1|s1|].
  - apply IH. now apply Hh.
  - simpl. intros [= <-]. now apply Hh.
  - simpl. discriminate.
Qed.

Lemma emit_keeps_index event args :
  handlers_keep_index ->
  forall fuel s,
    index_consistent s ->
    forall s', state_after (emit fuel event args s) = Some s' ->
               index_consistent s'.
Proof.
  intros Hkeep fuel s Hs s'. unfold emit.
  now apply forEach_keeps_index.
Qed.

Lemma addAgent_keeps_index fuel port uuid now s s' :
  handlers_keep_index ->
  index_consistent s ->
  state_after (addAgent fuel port uuid now s) = Some s' ->
  index_consistent s'.
Proof.
  intros Hkeep Hs. unfold addAgent.
  destruct (identifyConnectionSource port) as [[c|]|];
    try (simpl; now intros [= <-]).
  cbv zeta.
  set (agentId := Js.or_string _ uuid).
  set (agentInfo := match JsMap.get agentId (agentsInfo s) with
                    | Some _ => _
                    | None => _
                    end).
  set (s1 := with_listeners _ _).
  assert (Hs1 : index_consistent s1).
  { intros k. subst s1. simpl. rewrite JsMapFacts.has_set.
    unfold JsMap.has at 1 2 3.
    destruct (JsMap.get agentId (agents s)) as [portSet|] eqn:Hports.
    - rewrite Hports. fold (JsMap.has k (JsMap.set agentId
                               (JsSet.add same_port port portSet) (agents s))).
      now rewrite JsMapFacts.has_set, (Hs k).
    - rewrite JsMapFacts.get_set_same, set_set.
      fold (JsMap.has k (JsMap.set agentId
                           (JsSet.add same_port port []) (agents s))).
      now rewrite JsMapFacts.has_set, (Hs k). }
  intros Hrun.
  apply (emit_keeps_index "agentSetup" (AgentSetupArgs agentInfo port)
           Hkeep fuel s1 Hs1).
  destruct (emit fuel "agentSetup" _ s1); exact Hrun.
Qed.

Lemma removeAgent_keeps_index agentId s :
  index_consistent s -> index_consistent (removeAgent agentId s).
Proof.
  intros Hs. unfold removeAgent.
  destruct (JsMap.has agentId (agents s) && JsMap.has agentId (agentsInfo s));
    [|exact Hs].
  intros k. simpl. now rewrite !JsMapFacts.has_delete, (Hs k).
Qed.

Lemma removePortFromAgent_keeps_index fuel agentId port s s' :
  handlers_keep_index ->
  index_consistent s ->
  state_after (removePortFromAgent fuel agentId port s) = Some s' ->
  index_consistent s'.
Proof.
  intros Hkeep Hs. unfold removePortFromAgent.
  destruct (JsMap.get agentId (agents s)) as [portSet|] eqn:Hports;
    [|simpl; now intros [= <-]].
  cbv zeta.
  assert (Hknown : JsMap.has agentId (agentsInfo s) = true).
  { rewrite <- (Hs agentId). unfold JsMap.has. now rewrite Hports. }
  destruct (0 <? length (JsSet.delete same_port port portSet))%nat.
  - simpl. intros [= <-]. intros k. simpl.
    rewrite JsMapFacts.has_set, (Hs k).
    destruct (String.eqb_spec k agentId) as [->|]; [|reflexivity].
    now rewrite Hknown.
  - unfold JsMap.has in Hknown.
    destruct (JsMap.get agentId (agentsInfo s)) as [agentInfo|];
      [|discriminate].
    apply (emit_keeps_index _ _ Hkeep).
    intros k. simpl.
    rewrite !JsMapFacts.has_delete, JsMapFacts.has_set, (Hs k).
    destruct (String.eqb_spec k agentId); reflexivity.
Qed.

Lemma perform_keeps_index fuel op s s' :
  handlers_keep_index ->
  index_consistent s ->
  perform fuel op s = Some s' ->
  index_consistent s'.
Proof.
  intros Hkeep Hs. destruct op as [port uuid now|agentId|agentId port|event h];
    simpl.
  - now apply addAgent_keeps_index.
  - intros [= <-]. now apply removeAgent_keeps_index.
  - now apply removePortFromAgent_keeps_index.
  - intros [= <-]. apply (index_consistent_same_maps s); try assumption;
      unfold on; now destruct (JsMap.get event (eventHandlers s)).
Qed.

Lemma perform_all_keeps_index fuel ops :
  handlers_keep_index ->
  forall s s',
    index_consistent s ->
    perform_all fuel ops s = Some s' ->
    index_consistent s'.
Proof.
  intros Hkeep. induction ops as [|op ops IH]; intros s s' Hs; simpl.
  - now intros [= <-].
  - destruct (perform fuel op s) as [s1|] eqn:Hop; [|discriminate].
    apply IH. now apply (perform_keeps_index fuel op s).
Qed.

End Consistency.

(** ** Termination of the operations under handlers that stay out *)

Section Termination.
Context {host : Host}.
Hypothesis passive : forall h, leaves_state h.

Lemma forEach_passive event args :
  forall fuel i s,
    (length (subscribers event s) - i <= fuel)%nat ->
    exists s',
      state_after (forEach fuel i event args s) = Some s' /\
      eventHandlers s' = eventHandlers s.
Proof.
  induction fuel as [|fuel IH]; intros i s Hfuel; simpl;
    unfold subscribers in Hfuel;
    destruct (JsMap.get event (eventHandlers s)) as [hs|] eqn:Hget;
    try (exists s; now split);
    destruct (nth_error hs i) as [h|] eqn:Hnth;
    try (exists s; now split).
  - assert (i < length hs)%nat by (apply nth_error_Some; congruence). lia.
  - assert (i < length hs)%nat by (apply nth_error_Some; congruence).
    destruct (passive h args (with_invoked (invoked s ++ [(h, args)])%list s))
      as [-> | ->].
    + destruct (IH (S i) (with_invoked (invoked s ++ [(h, args)])%list s))
        as [s' [Hrun Hsame]].
      * unfold subscribers. simpl. rewrite Hget. lia.
      * exists s'. now split.
    + eexists. now split.
Qed.

Lemma emit_passive fuel event args s :
  (length (subscribers event s) <= fuel)%nat ->
  exists s',
    state_after (emit fuel event args s) = Some s' /\
    eventHandlers s' = eventHandlers s.
Proof.
  intros Hfuel. unfold emit.
  destruct (forEach_passive event args fuel 0
              (with_emitted (emitted s ++ [(event, args)])%list s))
    as [s' [Hrun Hsame]].
  - unfold subscribers in *. simpl. lia.
  - exists s'. now split.
Qed.

Lemma bounded_subscribers n event s :
  bounded n s -> (length (subscribers event s) <= n)%nat.
Proof.
  intros Hb. unfold subscribers.
  destruct (JsMap.get event (eventHandlers s)) as [hs|] eqn:Hget.
  - now apply (Hb event).
  - simpl. lia.
Qed.

Lemma bounded_same_handlers n s s' :
  eventHandlers s' = eventHandlers s -> bounded n s -> bounded (S n) s'.
Proof.
  unfold bounded. intros -> Hb event hs Hget.
  specialize (Hb event hs Hget). lia.
Qed.

Lemma bounded_on n event h s : bounded n s -> bounded (S n) (on event h s).
Proof.
  intros Hb. unfold on.
  destruct (JsMap.get event (eventHandlers s)) as [hs|] eqn:Hget;
    [|now apply (bounded_same_handlers n s)].
  intros event' hs' Hget'. simpl in Hget'.
  destruct (String.eqb_spec event' event) as [->|Hne].
  - rewrite JsMapFacts.get_set_same in Hget'. injection Hget' as <-.
    specialize (Hb event hs Hget). unfold JsSet.add.
    destruct (JsSet.has Nat.eqb h hs); [lia|].
    rewrite length_app. simpl. lia.
  - rewrite JsMapFacts.get_set_other in Hget' by exact Hne.
    specialize (Hb event' hs' Hget'). lia.
Qed.

Lemma perform_passive fuel op n s :
  bounded n s ->
  (n <= fuel)%nat ->
  exists s', perform fuel op s = Some s' /\ bounded (S n) s'.
Proof.
  intros Hb Hfuel.
  destruct op as [port uuid now|agentId|agentId port|event h]; simpl.
  - unfold addAgent.
    destruct (identifyConnectionSource port) as [[c|]|];
      try (exists s; split; [reflexivity|now apply (bounded_same_handlers n s)]).
    cbv zeta.
    set (agentInfo := match JsMap.get _ (agentsInfo s) with
                      | Some _ => _
                      | None => _
                      end).
    set (s1 := with_listeners _ _).
    destruct (emit_passive fuel "agentSetup"
                (AgentSetupArgs agentInfo port) s1) as [s' [Hrun Hsame]].
    + pose proof (bounded_subscribers n "agentSetup" s Hb).
      unfold subscribers in *. subst s1. simpl. lia.
    + exists s'. split.
      * destruct (emit fuel "agentSetup" _ s1); exact Hrun.
      * apply (bounded_same_handlers n s); [|exact Hb]. now rewrite Hsame.
  - exists (removeAgent agentId s). split; [reflexivity|].
    apply (bounded_same_handlers n s); [|exact Hb].
    unfold removeAgent. now destruct (_ && _).
  - unfold removePortFromAgent.
    destruct (JsMap.get agentId (agents s)) as [portSet|];
      [|exists s; split; [reflexivity|now apply (bounded_same_handlers n s)]].
    cbv zeta.
    destruct (0 <? length (JsSet.delete same_port port portSet))%nat;
      [eexists; split; [reflexivity|now apply (bounded_same_handlers n s)]|].
    destruct (JsMap.get agentId (agentsInfo s)) as [agentInfo|];
      [|eexists; split; [reflexivity|now apply (bounded_same_handlers n s)]].
    match goal with
    | |- context [emit fuel ?e ?a ?s0] =>
        destruct (emit_passive fuel e a s0) as [s' [Hrun Hsame]]
    end.
    + pose proof (bounded_subscribers n "agentDisconnect" s Hb).
      unfold subscribers in *. simpl. lia.
    + exists s'. split; [exact Hrun|].
      apply (bounded_same_handlers n s); [|exact Hb]. now rewrite Hsame.
  - exists (on event h s). split; [reflexivity|]. now apply bounded_on.
Qed.

Lemma perform_all_passive fuel ops :
  forall n s,
    bounded n s ->
    (n + length ops <= fuel)%nat ->
    exists s', perform_all fuel ops s = Some s'.
Proof.
  induction ops as [|op ops IH]; intros n s Hb Hfuel; simpl in *.
  - now exists s.
  - destruct (perform_passive fuel op n s Hb) as [s1 [-> Hb1]]; [lia|].
    apply (IH (S n)); [exact Hb1|lia].
Qed.

Lemma passive_keeps_index : handlers_keep_index.
Proof.
  intros h args s Hs. now destruct (passive h args s) as [-> | ->].
Qed.

End Termination.

Section IndexConsistency.
Context {host : Host}.

Lemma AgentManager_new_consistent : index_consistent AgentManager_new.
Proof. intros k. reflexivity. Qed.

Lemma AgentManager_new_bounded : bounded 0 AgentManager_new.
Proof.
  intros event hs. simpl.
  repeat match goal with
         | |- context [if ?b then _ else _] => destruct b
         end;
    intros [= <-]; simpl; lia.
Qed.

(** C4: starting from the registry as constructed, after any sequence of
    [addAgent], [removeAgent], [removePortFromAgent] and [on], the ids
    that are keys of [agents] are the ids that are keys of [agentsInfo].
    This holds whatever the handlers do, as long as they themselves keep
    the two maps on the same ids; and when no handler calls back into the
    registry, every such sequence runs to its end. *)
Theorem index_consistency fuel ops :
  (handlers_keep_index ->
   forall s',
     perform_all fuel ops AgentManager_new = Some s' ->
     index_consistent s') /\
  ((forall h, leaves_state h) ->
   (length ops <= fuel)%nat ->
   exists s',
     perform_all fuel ops AgentManager_new = Some s' /\
     index_consistent s').
Proof.
  split.
  - intros Hkeep s' Hrun.
    apply (perform_all_keeps_index fuel ops Hkeep AgentManager_new s');
      [apply AgentManager_new_consistent|exact Hrun].
  - intros Hpassive Hfuel.
    destruct (perform_all_passive Hpassive fuel ops 0 AgentManager_new
                AgentManager_new_bounded Hfuel) as [s' Hrun].
    exists s'. split; [exact Hrun|].
    apply (perform_all_keeps_index fuel ops (passive_keeps_index Hpassive)
             AgentManager_new s');
      [apply AgentManager_new_consistent|exact Hrun].
Qed.

End IndexConsistency.

(** ** The info map stays well formed *)

Section WellFormed.
Context {host : Host}.
Hypothesis passive : forall h, leaves_state h.

Lemma In_set {V : Type} (k k' : string) (v v' : V) (m : list (string * V)) :
  In (k', v') (JsMap.set k v m) -> (k', v') = (k, v) \/ In (k', v') m.
Proof.
  induction m as [|[k0 v0] m IH]; simpl.
  - intros [H|[]]; auto.
  - destruct (k0 =? k); simpl; intros [H|H]; auto.
    destruct (IH H); auto.
Qed.

Lemma keys_set {V : Type} (k : string) (v : V) (m : list (string * V)) :
  JsMap.keys (JsMap.set k v m) =
  if JsMap.has k m then JsMap.keys m else (JsMap.keys m ++ [k])%list.
Proof.
  unfold JsMap.has. induction m as [|[k0 v0] m IH]; simpl; [reflexivity|].
  destruct (String.eqb_spec k0 k) as [->|Hne]; simpl; [reflexivity|].
  rewrite IH. now destruct (JsMap.get k m).
Qed.

Lemma NoDup_keys_set {V : Type} (k : string) (v : V) (m : list (string * V)) :
  NoDup (JsMap.keys m) -> NoDup (JsMap.keys (JsMap.set k v m)).
Proof.
  intros Hnd. rewrite keys_set. unfold JsMap.has.
  destruct (JsMap.get k m) eqn:Hget; [exact Hnd|].
  apply JsMapFacts.get_None in Hget.
  apply NoDup_app; [exact Hnd|repeat constructor; simpl; tauto|].
  intros x Hx [<-|[]]. contradiction.
Qed.

Lemma NoDup_keys_delete {V : Type} (k : string) (m : list (string * V)) :
  NoDup (JsMap.keys m) -> NoDup (JsMap.keys (JsMap.delete k m)).
Proof.
  unfold JsMap.keys, JsMap.delete.
  induction m as [|[k0 v0] m IH]; simpl; intros Hnd; [constructor|].
  inversion Hnd as [|? ? Hnotin Hnd']; subst.
  destruct (negb (k0 =? k)); simpl; [|now apply IH].
  constructor; [|now apply IH].
  intros Hin. apply Hnotin. apply in_map_iff in Hin.
  destruct Hin as [[k1 v1] [Heq Hin]]. apply filter_In in Hin.
  apply in_map_iff. exists (k1, v1). tauto.
Qed.

Lemma well_formed_same_info s s' :
  agentsInfo s' = agentsInfo s -> well_formed s -> well_formed s'.
Proof. unfold well_formed. now intros ->. Qed.

Lemma well_formed_delete agentId s :
  well_formed s ->
  well_formed (with_agentsInfo (JsMap.delete agentId (agentsInfo s)) s).
Proof.
  intros [Hnd Hwf]. split; simpl.
  - now apply NoDup_keys_delete.
  - intros k i Hin. apply JsMapFacts.In_delete in Hin. now apply Hwf.
Qed.

Lemma forEach_passive_info event args :
  forall fuel i s s',
    state_after (forEach fuel i event args s) = Some s' ->
    agentsInfo s' = agentsInfo s.
Proof.
  induction fuel as [|fuel IH]; intros i s s'; simpl;
    destruct (JsMap.get event (eventHandlers s)) as [hs|];
    try (simpl; now intros [= <-]);
    destruct (nth_error hs i) as [h|];
    try (simpl; now intros [= <-]).
  destruct (passive h args (with_invoked (invoked s ++ [(h, args)])%list s))
    as [-> | ->].
  - intros Hrun. now rewrite (IH _ _ _ Hrun).
  - simpl. now intros [= <-].
Qed.

Lemma resolved_id_nonempty loc uuid s :
  uuid <> "" -> resolved_id loc uuid s <> "".
Proof.
  intros Hne. unfold resolved_id, Js.or_string, Js.truthy_string.
  destruct (getAgentByLocation loc s) as [a|]; [|exact Hne].
  destruct (String.eqb_spec (id (info a)) ""); simpl; assumption.
Qed.

Lemma addAgent_well_formed fuel port uuid now s s' :
  uuid <> "" ->
  well_formed s ->
  state_after (addAgent fuel port uuid now s) = Some s' ->
  well_formed s'.
Proof.
  intros Hne Hwf. unfold addAgent.
  destruct (identifyConnectionSource port) as [[c|]|];
    try (simpl; now intros [= <-]).
  cbv zeta.
  set (loc := location_of_source c).
  set (a := Js.or_string _ uuid).
  assert (Ha : a = resolved_id loc uuid s) by reflexivity.
  assert (Hane : a <> "") by (rewrite Ha; now apply resolved_id_nonempty).
  clearbody a.
  set (agentInfo := match JsMap.get a (agentsInfo s) with
                    | Some _ => _
                    | None => _
                    end).
  set (s1 := with_listeners _ _).
  assert (Hs1 : well_formed s1).
  { destruct Hwf as [Hnd Hids]. split; subst s1; simpl.
    - now apply NoDup_keys_set.
    - intros k i Hin. apply In_set in Hin. destruct Hin as [[= -> ->]|Hin];
        [|now apply Hids].
      split; [|exact Hane]. subst agentInfo.
      destruct (JsMap.get a (agentsInfo s)) as [e|] eqn:Hget; [|reflexivity].
      simpl. apply JsMapFacts.get_In in Hget. now apply Hids. }
  intros Hrun. apply (well_formed_same_info s1); [|exact Hs1].
  unfold emit in Hrun.
  destruct (forEach fuel 0 "agentSetup" (AgentSetupArgs agentInfo port)
              (with_emitted (emitted s1 ++ [("agentSetup",
                 AgentSetupArgs agentInfo port)])%list s1)) eqn:Hloop;
    try discriminate;
    injection Hrun as <-;
    apply (forEach_passive_info "agentSetup" (AgentSetupArgs agentInfo port)
             fuel 0 (with_emitted (emitted s1 ++ [("agentSetup",
                 AgentSetupArgs agentInfo port)])%list s1));
    now rewrite Hloop.
Qed.

Lemma removePortFromAgent_well_formed fuel agentId port s s' :
  well_formed s ->
  state_after (removePortFromAgent fuel agentId port s) = Some s' ->
  well_formed s'.
Proof.
  intros Hwf. unfold removePortFromAgent.
  destruct (JsMap.get agentId (agents s)) as [portSet|];
    [|simpl; now intros [= <-]].
  cbv zeta.
  destruct (0 <? length (JsSet.delete same_port port portSet))%nat;
    [simpl; now intros [= <-]|].
  destruct (JsMap.get agentId (agentsInfo s)) as [agentInfo|];
    [|simpl; now intros [= <-]].
  unfold emit. intros Hrun.
  apply forEach_passive_info in Hrun.
  apply (well_formed_same_info
           (with_agentsInfo (JsMap.delete agentId (agentsInfo s)) s));
    [exact Hrun|now apply well_formed_delete].
Qed.

(** Whatever the registry went through since its construction, its info
    map is well formed, as long as no uuid was the empty string. *)
Lemma perform_all_well_formed fuel ops :
  Forall (fun op => match op with
                    | AddAgent _ uuid _ => uuid <> ""
                    | _ => True
                    end) ops ->
  forall s s',
    well_formed s ->
    perform_all fuel ops s = Some s' ->
    well_formed s'.
Proof.
  induction 1 as [|op ops Hop Hops IH]; intros s s' Hwf; simpl.
  - now intros [= <-].
  - destruct (perform fuel op s) as [s1|] eqn:Hstep; [|discriminate].
    apply IH.
    destruct op as [port uuid now|agentId|agentId port|event h];
      simpl in Hstep.
    + now apply (addAgent_well_formed fuel port uuid now s).
    + injection Hstep as <-. unfold removeAgent.
      destruct (_ && _); [|exact Hwf].
      apply (well_formed_same_info
               (with_agentsInfo (JsMap.delete agentId (agentsInfo s)) s));
        [reflexivity|now apply well_formed_delete].
    + now apply (removePortFromAgent_well_formed fuel agentId port s).
    + injection Hstep as <-. apply (well_formed_same_info s); [|exact Hwf].
      unfold on. now destruct (JsMap.get event (eventHandlers s)).
Qed.

Lemma AgentManager_new_well_formed : well_formed AgentManager_new.
Proof. split; [constructor|intros k i []]. Qed.

End WellFormed.

(** ** The partial-location query *)

(** A frame id 0 in the query is read as no frame id at all. *)
Lemma queryAgents_zero_frameId_is_absent c t s :
  queryAgents {| partial_context := c; partial_tabId := t;
                 partial_frameId := Some 0%Z |} s =
  queryAgents {| partial_context := c; partial_tabId := t;
                 partial_frameId := None |} s.
Proof. reflexivity. Qed.

(** A tab id 0 in the query is read as no tab id at all. *)
Lemma queryAgents_zero_tabId_is_absent c f s :
  queryAgents {| partial_context := c; partial_tabId := Some 0%Z;
                 partial_frameId := f |} s =
  queryAgents {| partial_context := c; partial_tabId := None;
                 partial_frameId := f |} s.
Proof. reflexivity. Qed.

(** C7: the code at the failing input. The registry holds one agent, of tab
    7 and frame 5. The query for frame id 0 returns it, and so does the
    query for tab id 0: a zero in the query filters nothing. *)
Theorem queryAgents_zero_filters_nothing :
  map (fun a => location (info a))
      (queryAgents {| partial_context := None; partial_tabId := None;
                      partial_frameId := Some 0%Z |} Sample.one_agent)
  = [ {| context := "contentscript"; tabId := 7; frameId := 5 |} ] /\
  map (fun a => location (info a))
      (queryAgents {| partial_context := None; partial_tabId := Some 0%Z;
                      partial_frameId := None |} Sample.one_agent)
  = [ {| context := "contentscript"; tabId := 7; frameId := 5 |} ].
Proof. split; reflexivity. Qed.

(** ** The properties on the sample registry *)

Lemma sample_passive : forall h, leaves_state (host := Sample.host) h.
Proof. intros h args s. simpl. destruct (Nat.even h); auto. Qed.

Lemma sample_quiet_setup s :
  eventHandlers s = eventHandlers Sample.subscribed ->
  quiet (host := Sample.host) "agentSetup" 1 s.
Proof.
  intros Hsame. unfold quiet, subscribers. rewrite Hsame. simpl. split.
  - intros h [<-|[]] args s0. reflexivity.
  - lia.
Qed.

Lemma sample_quiet_disconnect s :
  eventHandlers s = eventHandlers Sample.subscribed ->
  quiet (host := Sample.host) "agentDisconnect" 1 s.
Proof.
  intros Hsame. unfold quiet, subscribers. rewrite Hsame. simpl. split.
  - intros h [<-|[]] args s0. reflexivity.
  - lia.
Qed.

Lemma sample_well_formed_one : well_formed Sample.one_agent.
Proof.
  split.
  - repeat constructor. simpl. tauto.
  - intros k i [[= <- <-]|[]]. split; [reflexivity|discriminate].
Qed.


Lemma addAgents_unique_witness :
  exists returned s',
    addAgents (host := Sample.host) 1 Sample.three_calls Sample.subscribed
    = Ok returned s' /\
    length returned = length Sample.three_calls /\
    NoDup returned /\
    ~ In None returned /\
    forall port uuid now,
      In (port, uuid, now) Sample.three_calls ->
      In (Some uuid) returned /\ getPortsByAgentId uuid s' = [port].
Proof.
  apply (@addAgents_unique Sample.host 1 Sample.three_calls Sample.three_keys
           Sample.subscribed).
  - repeat constructor.
  - repeat constructor; simpl; intuition discriminate.
  - repeat constructor; simpl; intuition discriminate.
  - intros k _ a i [].
  - intros c _. split; reflexivity.
  - now apply sample_quiet_setup.
Defined.

Lemma busy_a3_ports :
  JsMap.get "a3" (agents Scenario.busy) = Some [Sample.bare_port 3].
Proof. vm_compute. reflexivity. Qed.

Lemma busy_a3_info :
  JsMap.get "a3" (agentsInfo Scenario.busy) = Some Scenario.info_a3.
Proof. vm_compute. reflexivity. Qed.

Lemma busy_disconnect_handlers :
  JsMap.get "agentDisconnect" (eventHandlers Scenario.busy)
  = Some ([] ++ [1%nat])%list.
Proof. vm_compute. reflexivity. Qed.

Lemma busy_well_formed : well_formed Scenario.busy.
Proof.
  assert (Hinfo : agentsInfo Scenario.busy
                  = [("a1", info (Scenario.agent_a1)); ("a3", Scenario.info_a3)])
    by (vm_compute; reflexivity).
  unfold well_formed. rewrite Hinfo. split.
  - repeat constructor; simpl; intuition discriminate.
  - intros k i [[= <- <-]|[[= <- <-]|[]]]; split;
      first [reflexivity|discriminate].
Qed.

Lemma removePortFromAgent_counts_witness :
  (exists s',
      removePortFromAgent (host := Sample.host) 1 "a1" (Sample.page_port 1 7 5)
                          Sample.two_ports = Ok tt s' /\
      getAgentById "a1" s' =
      Some {| ports := [Sample.page_port 2 7 5];
              info := {| id := "a1";
                         location := {| context := "contentscript";
                                        tabId := 7; frameId := 5 |};
                         createdAt := 100; lastActiveAt := 200 |} |} /\
      length [Sample.page_port 2 7 5] = (2 - 1)%nat /\
      emitted s' = emitted Sample.two_ports /\
      invoked s' = invoked Sample.two_ports) /\
  (exists s',
      removePortFromAgent (host := Sample.host) 1 "a1" (Sample.page_port 1 7 5)
                          Sample.one_agent = Ok tt s' /\
      gone "a1" s' /\
      emitted s' =
      (emitted Sample.one_agent
         ++ [("agentDisconnect", AgentDisconnectArgs Sample.some_info)])%list /\
      invoked s' =
      (invoked Sample.one_agent
         ++ map (fun h => (h, AgentDisconnectArgs Sample.some_info))
                (subscribers "agentDisconnect" Sample.one_agent))%list) /\
  (exists s',
      removePortFromAgent (host := Sample.host) 1 "a3" (Sample.bare_port 3)
                          Scenario.busy = Exn s' /\
      gone "a3" s' /\
      emitted s' =
      (emitted Scenario.busy
         ++ [("agentDisconnect", AgentDisconnectArgs Scenario.info_a3)])%list /\
      invoked s' =
      (invoked Scenario.busy
         ++ map (fun x => (x, AgentDisconnectArgs Scenario.info_a3))
                ([] ++ [1%nat]))%list).
Proof.
  split; [|split].
  - apply (proj1 (@removePortFromAgent_counts Sample.host 1 Sample.two_ports "a1"
                    (Sample.page_port 1 7 5)
                    [Sample.page_port 1 7 5; Sample.page_port 2 7 5]
                    {| id := "a1";
                       location := {| context := "contentscript";
                                      tabId := 7; frameId := 5 |};
                       createdAt := 100; lastActiveAt := 200 |}
                    eq_refl eq_refl eq_refl
                    ltac:(repeat constructor; simpl; intuition discriminate)
                    ltac:(split;
                          [repeat constructor; simpl; tauto
                          |intros k i [[= <- <-]|[]];
                           split; [reflexivity|discriminate]]))).
    simpl. lia.
  - apply (proj1 (proj2 (@removePortFromAgent_counts Sample.host 1
                           Sample.one_agent "a1"
                           (Sample.page_port 1 7 5) [Sample.page_port 1 7 5]
                           Sample.some_info eq_refl eq_refl eq_refl
                           ltac:(repeat constructor; simpl; tauto)
                           sample_well_formed_one)
                    eq_refl)).
    now apply sample_quiet_disconnect.
  - apply (proj2 (proj2 (@removePortFromAgent_counts Sample.host 1
                           Scenario.busy "a3"
                           (Sample.bare_port 3) [Sample.bare_port 3]
                           Scenario.info_a3
                           busy_a3_ports busy_a3_info eq_refl
                           ltac:(repeat constructor; simpl; tauto)
                           busy_well_formed)
                    eq_refl)
             [] 1%nat []).
    + exact busy_disconnect_handlers.
    + intros x [].
    + intros args s. reflexivity.
    + simpl. lia.
Defined.

Lemma index_consistency_witness :
  exists s',
    perform_all (host := Sample.host) 8 Sample.script AgentManager_new = Some s' /\
    index_consistent s'.
Proof.
  apply (proj2 (@index_consistency Sample.host 8 Sample.script)).
  - exact sample_passive.
  - simpl. lia.
Defined.

Lemma removeAgent_forced_witness :
  getAgentById "a1" (removeAgent "a1" Sample.two_ports) = None /\
  emitted (removeAgent "a1" Sample.two_ports) = emitted Sample.two_ports /\
  listeners (removeAgent "a1" Sample.two_ports) = listeners Sample.two_ports.
Proof.
  pose proof (@removeAgent_forced Sample.two_ports "a1"
                [Sample.page_port 1 7 5; Sample.page_port 2 7 5]
                {| id := "a1";
                   location := {| context := "contentscript";
                                  tabId := 7; frameId := 5 |};
                   createdAt := 100; lastActiveAt := 200 |}
                eq_refl eq_refl) as H.
  repeat split; apply H.
Defined.

Lemma addAgent_rejects_without_sender_witness :
  addAgent (host := Sample.host) 1 (Sample.anonymous_port 9) "a9" 100
           Sample.subscribed = Ok None Sample.subscribed /\
  (exists agentId agentInfo s',
      addAgent (host := Sample.host) 1 (Sample.page_port 1 7 5) "a1" 100
               Sample.subscribed = Ok (Some agentId) s' /\
      JsMap.get agentId (agentsInfo s') = Some agentInfo /\
      JsSet.has same_port (Sample.page_port 1 7 5)
                (getPortsByAgentId agentId s') = true /\
      emitted s' =
      (emitted Sample.subscribed
         ++ [("agentSetup", AgentSetupArgs agentInfo (Sample.page_port 1 7 5))])%list /\
      invoked s' =
      (invoked Sample.subscribed
         ++ map (fun h => (h, AgentSetupArgs agentInfo (Sample.page_port 1 7 5)))
                (subscribers "agentSetup" Sample.subscribed))%list) /\
  (exists agentId agentInfo s',
      addAgent (host := Sample.host) 1 (Sample.page_port 1 7 5) "a1" 100
               Scenario.setup_thrower = Exn s' /\
      JsMap.get agentId (agentsInfo s') = Some agentInfo /\
      JsSet.has same_port (Sample.page_port 1 7 5)
                (getPortsByAgentId agentId s') = true /\
      emitted s' =
      (emitted Scenario.setup_thrower
         ++ [("agentSetup", AgentSetupArgs agentInfo (Sample.page_port 1 7 5))])%list /\
      invoked s' =
      (invoked Scenario.setup_thrower
         ++ map (fun x => (x, AgentSetupArgs agentInfo (Sample.page_port 1 7 5)))
                ([] ++ [1%nat]))%list) /\
  addAgent (host := Scenario.strict_host) 1
           (Scenario.extension_port 4 Scenario.rejected_url) "a4" 400
           Sample.subscribed = Exn Sample.subscribed.
Proof.
  split; [|split; [|split]].
  - apply (proj1 (@addAgent_rejects_without_sender Sample.host 1
                    (Sample.anonymous_port 9) "a9" 100 Sample.subscribed)).
    reflexivity.
  - destruct (proj2 (proj2 (proj2 (proj2
                (@addAgent_rejects_without_sender Sample.host 1
                   (Sample.page_port 1 7 5) "a1" 100 Sample.subscribed))
                ltac:(discriminate)))
                {| source_context := "contentscript";
                   source_tabId := Some 7%Z;
                   source_frameId := Some 5%Z;
                   source_url := Some "http://example.com";
                   source_portName := "porter" |} eq_refl)
      as [agentId [agentInfo [_ [Hreturns _]]]].
    destruct (Hreturns (sample_quiet_setup Sample.subscribed eq_refl))
      as [s' Hs']. now exists agentId, agentInfo, s'.
  - destruct (proj2 (proj2 (proj2 (proj2
                (@addAgent_rejects_without_sender Sample.host 1
                   (Sample.page_port 1 7 5) "a1" 100 Scenario.setup_thrower))
                ltac:(discriminate)))
                {| source_context := "contentscript";
                   source_tabId := Some 7%Z;
                   source_frameId := Some 5%Z;
                   source_url := Some "http://example.com";
                   source_portName := "porter" |} eq_refl)
      as [agentId [agentInfo [_ [_ Hthrows]]]].
    destruct (Hthrows [] 1%nat [] eq_refl
                (fun x (H : In x []) => match H with end)
                (fun args s => eq_refl)
                ltac:(simpl; lia))
      as [s' Hs']. now exists agentId, agentInfo, s'.
  - apply (proj1 (proj2 (proj2 (proj2
             (@addAgent_rejects_without_sender Scenario.strict_host 1
                (Scenario.extension_port 4 Scenario.rejected_url) "a4" 400
                Sample.subscribed))
             ltac:(discriminate)))).
    reflexivity.
Defined.

(** C6 fails on the code: both ports have a sender, and [addAgent] neither
    returns an id nor [undefined]: it throws. With a handler of
    [agentSetup] that throws, the error leaves [addAgent] after the agent
    was recorded; with a URL the [URL] constructor rejects, it leaves
    [addAgent] before the registry was touched. *)
Lemma addAgent_with_sender_may_throw :
  sender (Sample.page_port 1 7 5) <> None /\
  (exists s',
      addAgent (host := Sample.host) 1 (Sample.page_port 1 7 5) "a1" 100
               Scenario.setup_thrower = Exn s' /\
      JsMap.has "a1" (agentsInfo s') = true) /\
  ~ (exists agentId s',
        addAgent (host := Sample.host) 1 (Sample.page_port 1 7 5) "a1" 100
                 Scenario.setup_thrower = Ok (Some agentId) s') /\
  sender (Scenario.extension_port 4 Scenario.rejected_url) <> None /\
  addAgent (host := Scenario.strict_host) 1
           (Scenario.extension_port 4 Scenario.rejected_url) "a4" 400
           Sample.subscribed = Exn Sample.subscribed.
Proof.
  split; [discriminate|]. split; [|split; [|split]].
  - eexists. split; vm_compute; reflexivity.
  - intros [agentId [s' Hrun]]. vm_compute in Hrun. discriminate.
  - discriminate.
  - vm_compute. reflexivity.
Qed.

(** C8 fails on the code: handler 1 was subscribed before handler 2 and
    throws; the [emit] ends by throwing, and handler 2 was not invoked. *)
Lemma emit_does_not_isolate_handlers :
  subscribers "agentDisconnect" Sample.thrower_first = [1; 2]%nat /\
  exists s',
    emit (host := Sample.host) 2 "agentDisconnect"
         (AgentDisconnectArgs Sample.some_info) Sample.thrower_first = Exn s' /\
    map fst (invoked s') = [1]%nat.
Proof.
  split; [reflexivity|]. eexists. split; reflexivity.
Qed.

Lemma emit_stops_at_first_throw_witness :
  (exists s',
      emit (host := Sample.host) 1 "agentSetup"
           (AgentDisconnectArgs Sample.some_info) Sample.subscribed = Ok tt s' /\
      invoked s' =
      (invoked Sample.subscribed
         ++ map (fun h => (h, AgentDisconnectArgs Sample.some_info)) [2%nat])%list) /\
  (exists s',
      emit (host := Sample.host) 2 "agentDisconnect"
           (AgentDisconnectArgs Sample.some_info) Sample.thrower_first = Exn s' /\
      invoked s' =
      (invoked Sample.thrower_first
         ++ map (fun x => (x, AgentDisconnectArgs Sample.some_info))
                ([] ++ [1%nat]))%list).
Proof.
  split.
  - apply (proj1 (@emit_stops_at_first_throw Sample.host "agentSetup"
                    (AgentDisconnectArgs Sample.some_info) Sample.subscribed 1
                    [2%nat] eq_refl)).
    + intros h [<-|[]] args s. reflexivity.
    + simpl. lia.
  - apply (proj2 (@emit_stops_at_first_throw Sample.host "agentDisconnect"
                    (AgentDisconnectArgs Sample.some_info) Sample.thrower_first 2
                    [1; 2]%nat eq_refl) [] 1%nat [2%nat]).
    + reflexivity.
    + intros x [].
    + intros args s. reflexivity.
    + simpl. lia.
Defined.

(** C9 fails on the code: the port's sender has neither tab nor URL, and the
    agent created for it has tab id -1, not 0. *)
Lemma fallback_tabId_is_minus_one :
  exists s' agentInfo,
    addAgent (host := Sample.host) 1 (Sample.bare_port 3) "a3" 300
             Sample.subscribed = Ok (Some "a3") s' /\
    JsMap.get "a3" (agentsInfo s') = Some agentInfo /\
    location agentInfo =
    {| context := "unknown"; tabId := -1; frameId := 0 |} /\
    tabId (location agentInfo) <> 0%Z.
Proof.
  eexists _, _. split; [reflexivity|]. split; [reflexivity|].
  split; [reflexivity|discriminate].
Qed.

Lemma addAgent_fallback_location_witness :
  identityKey (host := Sample.host) (Sample.bare_port 3) =
  Normal (Some {| context := "unknown"; tabId := -1; frameId := 0 |}) /\
  exists agentId agentInfo s',
    addAgent (host := Sample.host) 1 (Sample.bare_port 3) "a3" 300
             Sample.one_agent = Ok (Some agentId) s' /\
    JsMap.get agentId (agentsInfo s') = Some agentInfo /\
    location agentInfo = {| context := "unknown"; tabId := -1; frameId := 0 |}.
Proof.
  apply (@addAgent_fallback_location Sample.host 1 (Sample.bare_port 3) "a3" 300
           Sample.one_agent
           {| tab := None; url := None; sender_frameId := None |}).
  - reflexivity.
  - now left.
  - exact sample_well_formed_one.
  - split; reflexivity.
  - now apply sample_quiet_setup.
Defined.


(** * Further properties of the registry *)

(** ** More facts about maps and sets *)

Lemma delete_unknown {V : Type} (k : string) (m : list (string * V)) :
  JsMap.get k m = None -> JsMap.delete k m = m.
Proof.
  induction m as [|[k' v'] m IH]; simpl; [reflexivity|].
  destruct (k' =? k); [discriminate|]. simpl. intros H. now rewrite IH.
Qed.

Lemma delete_set {V : Type} (k : string) (v : V) (m : list (string * V)) :
  JsMap.delete k (JsMap.set k v m) = JsMap.delete k m.
Proof.
  induction m as [|[k' v'] m IH]; simpl.
  - now rewrite String.eqb_refl.
  - destruct (k' =? k) eqn:Heq; simpl.
    + now rewrite String.eqb_refl.
    + now rewrite Heq, IH.
Qed.

Lemma set_unchanged {V : Type} (k : string) (v : V) (m : list (string * V)) :
  JsMap.get k m = Some v -> JsMap.set k v m = m.
Proof.
  induction m as [|[k' v'] m IH]; simpl; [discriminate|].
  destruct (String.eqb_spec k' k) as [->|Hne].
  - now intros [= ->].
  - intros H. now rewrite IH.
Qed.

Lemma delete_delete (port : Port) (portSet : list Port) :
  JsSet.delete same_port port (JsSet.delete same_port port portSet)
  = JsSet.delete same_port port portSet.
Proof.
  unfold JsSet.delete. induction portSet as [|q portSet IH]; simpl; [reflexivity|].
  destruct (negb (same_port port q)) eqn:Hq; simpl; [|exact IH].
  now rewrite Hq, IH.
Qed.

Lemma add_has (port : Port) (portSet : list Port) :
  JsSet.has same_port port (JsSet.add same_port port portSet) = true.
Proof.
  unfold JsSet.add. destruct (JsSet.has same_port port portSet) eqn:Hhas;
    [exact Hhas|].
  unfold JsSet.has. rewrite existsb_app. simpl.
  unfold same_port. now rewrite Nat.eqb_refl, orb_true_r.
Qed.

Lemma add_nonempty (port : Port) (portSet : list Port) :
  exists p rest, JsSet.add same_port port portSet = p :: rest.
Proof.
  unfold JsSet.add. destruct (JsSet.has same_port port portSet) eqn:Hhas.
  - destruct portSet as [|p rest]; [discriminate|]. now exists p, rest.
  - destruct portSet as [|p rest]; simpl; eauto.
Qed.

Lemma map_set_same {V W : Type} (g : V -> W) (k : string) (v e : V)
      (m : list (string * V)) :
  JsMap.get k m = Some e -> g v = g e ->
  map (fun entry => g (snd entry)) (JsMap.set k v m)
  = map (fun entry => g (snd entry)) m.
Proof.
  intros Hget Hg. induction m as [|[k' v'] m IH]; simpl in *; [discriminate|].
  destruct (k' =? k); simpl.
  - injection Hget as ->. now rewrite Hg.
  - now rewrite IH.
Qed.

Lemma NoDup_map_filter {A B : Type} (g : A -> B) (p : A -> bool) (l : list A) :
  NoDup (map g l) -> NoDup (map g (filter p l)).
Proof.
  induction l as [|x l IH]; simpl; intros Hnd; [constructor|].
  inversion Hnd as [|? ? Hnotin Hnd']; subst.
  destruct (p x); simpl; [|now apply IH].
  constructor; [|now apply IH].
  intros Hin. apply Hnotin. apply in_map_iff in Hin.
  destruct Hin as [y [Heq Hin]]. apply filter_In in Hin.
  apply in_map_iff. exists y. tauto.
Qed.

Lemma NoDup_map_In {A B : Type} (g : A -> B) (l : list A) (x y : A) :
  NoDup (map g l) -> In x l -> In y l -> g x = g y -> x = y.
Proof.
  induction l as [|z l IH]; simpl; intros Hnd Hx Hy Hg; [contradiction|].
  inversion Hnd as [|? ? Hnotin Hnd']; subst.
  destruct Hx as [->|Hx], Hy as [->|Hy]; auto.
  - exfalso. apply Hnotin. rewrite Hg. now apply in_map.
  - exfalso. apply Hnotin. rewrite <- Hg. now apply in_map.
Qed.

Lemma find_set {V : Type} (f : string * V -> bool) (k : string) (v e : V)
      (m : list (string * V)) :
  find f m = Some (k, e) -> f (k, v) = true ->
  find f (JsMap.set k v m) = Some (k, v).
Proof.
  intros Hfind Hv. induction m as [|[k' v'] m IH]; simpl in *; [discriminate|].
  destruct (String.eqb_spec k' k) as [->|Hne]; simpl.
  - now rewrite Hv.
  - destruct (f (k', v')); [congruence|]. now apply IH.
Qed.

(** ** What the operations leave when no handler calls back *)

Section Passive.
Context {host : Host}.
Hypothesis passive : forall h, leaves_state h.

Lemma forEach_passive_state event args :
  forall fuel i s s',
    state_after (forEach fuel i event args s) = Some s' ->
    agents s' = agents s /\ agentsInfo s' = agentsInfo s /\
    eventHandlers s' = eventHandlers s.
Proof.
  induction fuel as [|fuel IH]; intros i s s'; simpl;
    destruct (JsMap.get event (eventHandlers s)) as [hs|];
    try (simpl; now intros [= <-]);
    destruct (nth_error hs i) as [h|];
    try (simpl; now intros [= <-]).
  destruct (passive h args (with_invoked (invoked s ++ [(h, args)])%list s))
    as [-> | ->].
  - intros Hrun. now apply IH in Hrun.
  - simpl. now intros [= <-].
Qed.

Lemma emit_passive_state fuel event args s s' :
  state_after (emit fuel event args s) = Some s' ->
  agents s' = agents s /\ agentsInfo s' = agentsInfo s /\
  eventHandlers s' = eventHandlers s.
Proof. unfold emit. intros Hrun. now apply forEach_passive_state in Hrun. Qed.

(** The maps [addAgent] leaves for a classified port. *)
Lemma addAgent_passive_maps fuel port uuid now s s' c :
  identifyConnectionSource port = Normal (Some c) ->
  state_after (addAgent fuel port uuid now s) = Some s' ->
  agents s' =
  JsMap.set (resolved_id (location_of_source c) uuid s)
    (JsSet.add same_port port
       (getPortsByAgentId (resolved_id (location_of_source c) uuid s) s))
    (agents s) /\
  agentsInfo s' =
  JsMap.set (resolved_id (location_of_source c) uuid s)
    match JsMap.get (resolved_id (location_of_source c) uuid s) (agentsInfo s) with
    | Some existingAgentInfo => touched existingAgentInfo now
    | None =>
        new_agentInfo (resolved_id (location_of_source c) uuid s)
          (location_of_source c) now
    end
    (agentsInfo s) /\
  eventHandlers s' = eventHandlers s.
Proof.
  intros Hsrc. unfold addAgent, getPortsByAgentId, JsMap.has.
  rewrite Hsrc. cbv zeta.
  set (a := Js.or_string _ uuid).
  assert (Ha : a = resolved_id (location_of_source c) uuid s) by reflexivity.
  clearbody a. subst a.
  set (agentId := resolved_id (location_of_source c) uuid s).
  intros Hrun.
  match type of Hrun with
  | state_after match emit ?f ?e ?a ?s0 with _ => _ end = _ =>
      assert (Hemit : state_after (emit f e a s0) = Some s')
        by (destruct (emit f e a s0); exact Hrun)
  end.
  apply emit_passive_state in Hemit. simpl in Hemit.
  destruct Hemit as [Hagents [Hinfo Hhandlers]].
  split; [|split; [|exact Hhandlers]].
  - rewrite Hagents.
    destruct (JsMap.get agentId (agents s)) as [portSet|] eqn:Hports;
      cbv iota.
    + now rewrite Hports.
    + now rewrite JsMapFacts.get_set_same, set_set.
  - rewrite Hinfo. now destruct (JsMap.get agentId (agentsInfo s)).
Qed.

Lemma addAgent_unclassified fuel port uuid now s s' :
  (forall c, identifyConnectionSource port <> Normal (Some c)) ->
  state_after (addAgent fuel port uuid now s) = Some s' ->
  s' = s.
Proof.
  intros Hsrc. unfold addAgent.
  destruct (identifyConnectionSource port) as [[c|]|]; simpl.
  - now destruct (Hsrc c).
  - now intros [= <-].
  - now intros [= <-].
Qed.

Lemma addAgent_not_added fuel port uuid now s s' :
  identifyConnectionSource port = Normal None \/
  identifyConnectionSource port = Abrupt ->
  state_after (addAgent fuel port uuid now s) = Some s' ->
  s' = s.
Proof.
  intros Hsrc. apply addAgent_unclassified.
  intros c Hc. destruct Hsrc as [H|H]; rewrite H in Hc; discriminate.
Qed.

(** The maps [removePortFromAgent] leaves. *)
Lemma removePortFromAgent_passive_maps fuel agentId port s s' :
  state_after (removePortFromAgent fuel agentId port s) = Some s' ->
  eventHandlers s' = eventHandlers s /\
  match JsMap.get agentId (agents s) with
  | None => agents s' = agents s /\ agentsInfo s' = agentsInfo s
  | Some portSet =>
      match JsSet.delete same_port port portSet with
      | [] =>
          agents s' = JsMap.delete agentId (agents s) /\
          agentsInfo s' = JsMap.delete agentId (agentsInfo s)
      | remaining =>
          agents s' = JsMap.set agentId remaining (agents s) /\
          agentsInfo s' = agentsInfo s
      end
  end.
Proof.
  unfold removePortFromAgent.
  destruct (JsMap.get agentId (agents s)) as [portSet|];
    [|simpl; now intros [= <-]].
  cbv zeta.
  destruct (JsSet.delete same_port port portSet) as [|p remaining] eqn:Hrem.
  - simpl.
    destruct (JsMap.get agentId (agentsInfo s)) as [agentInfo|] eqn:Hinfo.
    + intros Hrun. apply emit_passive_state in Hrun. simpl in Hrun.
      destruct Hrun as [-> [-> ->]]. now rewrite delete_set.
    + simpl. intros [= <-]. simpl.
      now rewrite delete_set, (delete_unknown _ _ Hinfo).
  - simpl. now intros [= <-].
Qed.

End Passive.

(** ** The invariants of the registry *)

Section Soundness.
Context {host : Host}.
Hypothesis passive : forall h, leaves_state h.

Lemma or_number_nonzero x d : d <> 0%Z -> Js.or_number x d <> 0%Z.
Proof.
  intros Hd. unfold Js.or_number, Js.truthy_number.
  destruct x as [n|]; [|exact Hd].
  destruct (Z.eqb_spec n 0); simpl; assumption.
Qed.

Lemma sound_vacant loc s :
  sound s -> getAgentByLocation loc s = None -> vacant loc s.
Proof.
  intros [[Hnd Hids] [Hports _]]. unfold getAgentByLocation.
  destruct (find _ (agentsInfo s)) as [[k i]|] eqn:Hfind.
  - apply find_some in Hfind. destruct Hfind as [Hin _]. simpl.
    destruct (Hports k i Hin) as [p [portSet ->]].
    now rewrite (JsMapFacts.In_get _ _ _ Hnd Hin).
  - intros _ k i Hin. now apply (find_none _ _ Hfind (k, i)).
Qed.

(** The id [addAgent] settles on: that of the agent at the location, whose
    info the map holds under it, or the uuid when the location is vacant. *)
Lemma resolved_id_cases loc uuid s :
  sound s ->
  (exists a,
      getAgentByLocation loc s = Some a /\
      resolved_id loc uuid s = id (info a) /\
      JsMap.get (id (info a)) (agentsInfo s) = Some (info a) /\
      location (info a) = loc) \/
  (vacant loc s /\ resolved_id loc uuid s = uuid).
Proof.
  intros Hsound. unfold resolved_id.
  destruct (getAgentByLocation loc s) as [a|] eqn:Hfound.
  - left. exists a.
    destruct (getAgentByLocation_Some _ _ _ (proj1 Hsound) Hfound)
      as [Hloc [Hne Hget]].
    repeat split; try assumption.
    unfold Js.or_string, Js.truthy_string.
    apply String.eqb_neq in Hne. now rewrite Hne.
  - right. split; [now apply sound_vacant|reflexivity].
Qed.

Lemma ports_nonempty_same_maps s s' :
  agents s' = agents s -> agentsInfo s' = agentsInfo s ->
  ports_nonempty s -> ports_nonempty s'.
Proof. unfold ports_nonempty. now intros -> ->. Qed.

Lemma ports_nonempty_delete agentId s s' :
  agents s' = JsMap.delete agentId (agents s) ->
  agentsInfo s' = JsMap.delete agentId (agentsInfo s) ->
  ports_nonempty s -> ports_nonempty s'.
Proof.
  intros Ha Hi Hports k i Hin. rewrite Hi in Hin. rewrite Ha.
  apply JsMapFacts.In_delete in Hin. destruct Hin as [Hin Hne].
  rewrite JsMapFacts.get_delete_other by exact Hne. now apply (Hports k i).
Qed.

Lemma addAgent_ports_nonempty fuel port uuid now s s' :
  ports_nonempty s ->
  state_after (addAgent fuel port uuid now s) = Some s' ->
  ports_nonempty s'.
Proof.
  intros Hports Hrun.
  destruct (identifyConnectionSource port) as [[c|]|] eqn:Hsrc.
  - destruct (addAgent_passive_maps passive _ _ _ _ _ _ _ Hsrc Hrun)
      as [Ha [Hi _]].
    set (agentId := resolved_id (location_of_source c) uuid s) in *.
    intros k i Hin. rewrite Ha. rewrite Hi in Hin.
    destruct (String.eqb_spec k agentId) as [->|Hne].
    + rewrite JsMapFacts.get_set_same.
      destruct (add_nonempty port (getPortsByAgentId agentId s))
        as [p [rest ->]]. eauto.
    + rewrite JsMapFacts.get_set_other by exact Hne.
      apply In_set in Hin. destruct Hin as [[= Hk _]|Hin]; [contradiction|].
      now apply (Hports k i).
  - rewrite (addAgent_not_added fuel port uuid now _ _ (or_introl Hsrc) Hrun).
    exact Hports.
  - rewrite (addAgent_not_added fuel port uuid now _ _ (or_intror Hsrc) Hrun).
    exact Hports.
Qed.

Lemma removeAgent_ports_nonempty agentId s :
  ports_nonempty s -> ports_nonempty (removeAgent agentId s).
Proof.
  intros Hports. unfold removeAgent. destruct (_ && _); [|exact Hports].
  now apply (ports_nonempty_delete agentId s).
Qed.

Lemma removePortFromAgent_ports_nonempty fuel agentId port s s' :
  ports_nonempty s ->
  state_after (removePortFromAgent fuel agentId port s) = Some s' ->
  ports_nonempty s'.
Proof.
  intros Hports Hrun.
  destruct (removePortFromAgent_passive_maps passive _ _ _ _ _ Hrun)
    as [_ Hmaps].
  destruct (JsMap.get agentId (agents s)) as [portSet|].
  - destruct (JsSet.delete same_port port portSet) as [|p remaining].
    + destruct Hmaps as [Ha Hi]. now apply (ports_nonempty_delete agentId s).
    + destruct Hmaps as [Ha Hi]. intros k i Hin. rewrite Ha. rewrite Hi in Hin.
      destruct (String.eqb_spec k agentId) as [->|Hne].
      * rewrite JsMapFacts.get_set_same. eauto.
      * rewrite JsMapFacts.get_set_other by exact Hne. now apply (Hports k i).
  - destruct Hmaps as [Ha Hi]. now apply (ports_nonempty_same_maps s).
Qed.

Lemma perform_all_ports_nonempty fuel ops :
  forall s s',
    ports_nonempty s ->
    perform_all fuel ops s = Some s' ->
    ports_nonempty s'.
Proof.
  induction ops as [|op ops IH]; intros s s' Hports; simpl.
  - now intros [= <-].
  - destruct (perform fuel op s) as [s1|] eqn:Hstep; [|discriminate].
    apply IH.
    destruct op as [port uuid now|agentId|agentId port|event h];
      simpl in Hstep.
    + now apply (addAgent_ports_nonempty fuel port uuid now s).
    + injection Hstep as <-. now apply removeAgent_ports_nonempty.
    + now apply (removePortFromAgent_ports_nonempty fuel agentId port s).
    + injection Hstep as <-. apply (ports_nonempty_same_maps s);
        try assumption; unfold on;
        now destruct (JsMap.get event (eventHandlers s)).
Qed.

Lemma unique_locations_delete agentId s s' :
  agentsInfo s' = JsMap.delete agentId (agentsInfo s) ->
  unique_locations s -> unique_locations s'.
Proof.
  unfold unique_locations. intros ->. apply NoDup_map_filter.
Qed.

Lemma vacant_not_In loc s :
  vacant loc s ->
  ~ In loc (map (fun entry => location (snd entry)) (agentsInfo s)).
Proof.
  intros Hvac Hin. apply in_map_iff in Hin.
  destruct Hin as [[k i] [Heq Hin]]. simpl in Heq.
  specialize (Hvac k i Hin). rewrite Heq, same_location_refl in Hvac.
  discriminate.
Qed.

Lemma addAgent_sound fuel port uuid now s s' :
  uuid <> "" ->
  sound s ->
  state_after (addAgent fuel port uuid now s) = Some s' ->
  sound s'.
Proof.
  intros Hne Hsound Hrun.
  split; [|split].
  - now apply (addAgent_well_formed passive fuel port uuid now s s' Hne
                 (proj1 Hsound)).
  - now apply (addAgent_ports_nonempty fuel port uuid now s s'
                 (proj1 (proj2 Hsound))).
  - destruct (identifyConnectionSource port) as [[c|]|] eqn:Hsrc.
    + destruct (addAgent_passive_maps passive _ _ _ _ _ _ _ Hsrc Hrun)
        as [_ [Hi _]].
      unfold unique_locations. rewrite Hi.
      destruct (resolved_id_cases (location_of_source c) uuid s Hsound)
        as [[a [_ [-> [Hget _]]]]|[Hvac ->]].
      * rewrite Hget.
        rewrite (map_set_same location _ (touched (info a) now) _ _ Hget eq_refl).
        apply Hsound.
      * destruct (JsMap.get uuid (agentsInfo s)) as [e|] eqn:Hget.
        -- rewrite (map_set_same location _ (touched e now) _ _ Hget eq_refl).
           apply Hsound.
        -- rewrite (JsMapFacts.set_fresh _ _ _ Hget), map_app. simpl.
           apply NoDup_app; [apply Hsound|repeat constructor; simpl; tauto|].
           intros x Hx [<-|[]]. now apply (vacant_not_In _ _ Hvac).
    + rewrite (addAgent_not_added fuel port uuid now _ _ (or_introl Hsrc) Hrun).
      apply Hsound.
    + rewrite (addAgent_not_added fuel port uuid now _ _ (or_intror Hsrc) Hrun).
      apply Hsound.
Qed.

Lemma perform_all_sound fuel ops :
  uuids_nonempty ops ->
  forall s s',
    sound s ->
    perform_all fuel ops s = Some s' ->
    sound s'.
Proof.
  induction 1 as [|op ops Hop Hops IH]; intros s s' Hsound; simpl.
  - now intros [= <-].
  - destruct (perform fuel op s) as [s1|] eqn:Hstep; [|discriminate].
    apply IH.
    destruct op as [port uuid now|agentId|agentId port|event h];
      simpl in Hstep.
    + now apply (addAgent_sound fuel port uuid now s).
    + injection Hstep as <-. destruct Hsound as [Hwf [Hports Huniq]].
      split; [|split].
      * unfold removeAgent. destruct (_ && _); [|exact Hwf].
        apply (well_formed_same_info
                 (with_agentsInfo (JsMap.delete agentId (agentsInfo s)) s));
          [reflexivity|now apply well_formed_delete].
      * now apply removeAgent_ports_nonempty.
      * unfold removeAgent. destruct (_ && _); [|exact Huniq].
        now apply (unique_locations_delete agentId s).
    + destruct Hsound as [Hwf [Hports Huniq]].
      split; [|split].
      * now apply (removePortFromAgent_well_formed passive fuel agentId port s).
      * now apply (removePortFromAgent_ports_nonempty fuel agentId port s).
      * destruct (removePortFromAgent_passive_maps passive _ _ _ _ _ Hstep)
          as [_ Hmaps].
        destruct (JsMap.get agentId (agents s)) as [portSet|].
        -- destruct (JsSet.delete same_port port portSet) as [|p remaining];
             destruct Hmaps as [_ Hi].
           ++ now apply (unique_locations_delete agentId s).
           ++ unfold unique_locations. now rewrite Hi.
        -- destruct Hmaps as [_ Hi]. unfold unique_locations. now rewrite Hi.
    + injection Hstep as <-. unfold on.
      now destruct (JsMap.get event (eventHandlers s)).
Qed.

Lemma AgentManager_new_sound : sound AgentManager_new.
Proof.
  split; [split; [constructor|intros k i []]|split].
  - intros k i [].
  - constructor.
Qed.

Lemma perform_all_no_tab_zero fuel ops :
  forall s s',
    no_tab_zero s ->
    perform_all fuel ops s = Some s' ->
    no_tab_zero s'.
Proof.
  induction ops as [|op ops IH]; intros s s' Hzero; simpl.
  - now intros [= <-].
  - destruct (perform fuel op s) as [s1|] eqn:Hstep; [|discriminate].
    apply IH.
    destruct op as [port uuid now|agentId|agentId port|event h];
      simpl in Hstep.
    + destruct (identifyConnectionSource port) as [[c|]|] eqn:Hsrc.
      * destruct (addAgent_passive_maps passive _ _ _ _ _ _ _ Hsrc Hstep)
          as [_ [Hi _]].
        intros k i Hin. rewrite Hi in Hin. apply In_set in Hin.
        destruct Hin as [[= _ ->]|Hin]; [|now apply (Hzero k i)].
        destruct (JsMap.get _ (agentsInfo s)) as [e|] eqn:Hget.
        -- simpl. apply JsMapFacts.get_In in Hget.
           exact (Hzero _ e Hget).
        -- simpl. now apply or_number_nonzero.
      * now rewrite (addAgent_not_added fuel port uuid now _ _ (or_introl Hsrc) Hstep).
      * now rewrite (addAgent_not_added fuel port uuid now _ _ (or_intror Hsrc) Hstep).
    + injection Hstep as <-. unfold removeAgent.
      destruct (_ && _); [|exact Hzero].
      intros k i Hin. simpl in Hin. apply JsMapFacts.In_delete in Hin.
      now apply (Hzero k i).
    + destruct (removePortFromAgent_passive_maps passive _ _ _ _ _ Hstep)
        as [_ Hmaps].
      intros k i Hin.
      destruct (JsMap.get agentId (agents s)) as [portSet|].
      * destruct (JsSet.delete same_port port portSet) as [|p remaining];
          destruct Hmaps as [_ Hi]; rewrite Hi in Hin.
        -- apply JsMapFacts.In_delete in Hin. now apply (Hzero k i).
        -- now apply (Hzero k i).
      * destruct Hmaps as [_ Hi]. rewrite Hi in Hin. now apply (Hzero k i).
    + injection Hstep as <-. unfold on.
      now destruct (JsMap.get event (eventHandlers s)).
Qed.

End Soundness.

(** ** What every registry built by the class satisfies *)

Section Reachable.
Context {host : Host}.

Lemma In_getAllAgents a s :
  In a (getAllAgents s) <->
  exists k i, In (k, i) (agentsInfo s) /\ a = agent_of_entry s (k, i).
Proof.
  unfold getAllAgents. rewrite in_map_iff. split.
  - intros [[k i] [<- Hin]]. now exists k, i.
  - intros [k [i [Hin ->]]]. now exists (k, i).
Qed.

(** X1: in every registry the operations of the class lead to, an agent the
    accessors show has at least one port, whatever the uuids were; no
    handler calls back into the registry. *)
Theorem every_agent_has_a_port fuel ops s' :
  (forall h, leaves_state h) ->
  perform_all fuel ops AgentManager_new = Some s' ->
  (forall a, In a (getAllAgents s') -> ports a <> []) /\
  (forall agentId a, getAgentById agentId s' = Some a -> ports a <> []).
Proof.
  intros passive Hrun.
  assert (Hports : ports_nonempty s').
  { apply (perform_all_ports_nonempty passive fuel ops AgentManager_new s');
      [intros k i []|exact Hrun]. }
  split.
  - intros a Ha. apply In_getAllAgents in Ha. destruct Ha as [k [i [Hin ->]]].
    unfold agent_of_entry. simpl.
    destruct (Hports k i Hin) as [p [portSet ->]]. discriminate.
  - intros agentId a. unfold getAgentById.
    destruct (JsMap.get agentId (agents s')) as [portSet|] eqn:Hget;
      [|discriminate].
    destruct (JsMap.get agentId (agentsInfo s')) as [i|] eqn:Hinfo;
      [|discriminate].
    intros [= <-]. simpl. apply JsMapFacts.get_In in Hinfo.
    destruct (Hports agentId i Hinfo) as [p [rest Hsome]]. congruence.
Qed.

(** X2: in every registry the operations of the class lead to, two agents
    the registry lists at one location are one agent; the uuids are not
    empty and no handler calls back. *)
Theorem one_agent_per_location fuel ops s' :
  (forall h, leaves_state h) ->
  uuids_nonempty ops ->
  perform_all fuel ops AgentManager_new = Some s' ->
  forall a b,
    In a (getAllAgents s') -> In b (getAllAgents s') ->
    location (info a) = location (info b) -> a = b.
Proof.
  intros passive Huuids Hrun a b Ha Hb Hloc.
  destruct (perform_all_sound passive fuel ops Huuids AgentManager_new s'
              AgentManager_new_sound Hrun) as [_ [_ Huniq]].
  apply In_getAllAgents in Ha. destruct Ha as [ka [ia [Hina ->]]].
  apply In_getAllAgents in Hb. destruct Hb as [kb [ib [Hinb ->]]].
  simpl in Hloc.
  now rewrite (NoDup_map_In (fun entry => location (snd entry)) _
                 (ka, ia) (kb, ib) Huniq Hina Hinb Hloc).
Qed.

(** X3: no agent is ever stored at tab id 0, since [addAgent] replaces a
    classified tab id 0 by -1; so [getAgentByLocation] finds nothing at tab
    id 0 in any registry the operations lead to. *)
Theorem no_agent_at_tab_zero fuel ops s' :
  (forall h, leaves_state h) ->
  perform_all fuel ops AgentManager_new = Some s' ->
  (forall a, In a (getAllAgents s') -> tabId (location (info a)) <> 0%Z) /\
  (forall c f,
      getAgentByLocation {| context := c; tabId := 0; frameId := f |} s' = None).
Proof.
  intros passive Hrun.
  assert (Hzero : no_tab_zero s').
  { apply (perform_all_no_tab_zero passive fuel ops AgentManager_new s');
      [intros k i []|exact Hrun]. }
  split.
  - intros a Ha. apply In_getAllAgents in Ha. destruct Ha as [k [i [Hin ->]]].
    now apply (Hzero k i).
  - intros c f. unfold getAgentByLocation.
    destruct (find _ (agentsInfo s')) as [[k i]|] eqn:Hfind; [|reflexivity].
    apply find_some in Hfind. destruct Hfind as [Hin Hsame].
    apply same_location_eq in Hsame. simpl in Hsame.
    specialize (Hzero k i Hin). rewrite Hsame in Hzero. now elim Hzero.
Qed.

(** X4: in a sound registry, [getAgentByLocation] returns an agent exactly
    when [getAllAgents] lists it at that location. *)
Theorem getAgentByLocation_finds_the_agent loc s a :
  sound s ->
  getAgentByLocation loc s = Some a <->
  In a (getAllAgents s) /\ location (info a) = loc.
Proof.
  intros [[Hnd Hids] [Hports Huniq]]. rewrite In_getAllAgents. split.
  - unfold getAgentByLocation.
    destruct (find _ (agentsInfo s)) as [[k i]|] eqn:Hfind; [|discriminate].
    apply find_some in Hfind. destruct Hfind as [Hin Hsame]. simpl in *.
    rewrite (JsMapFacts.In_get _ _ _ Hnd Hin).
    destruct (JsMap.get k (agents s)) as [[|p portSet]|] eqn:Hget;
      try discriminate.
    intros [= <-]. simpl. apply same_location_eq in Hsame. split; [|exact Hsame].
    exists k, i. split; [exact Hin|]. unfold agent_of_entry. simpl.
    now rewrite Hget.
  - intros [[k [i [Hin ->]]] Hloc]. simpl in Hloc.
    unfold getAgentByLocation.
    destruct (find _ (agentsInfo s)) as [[k' i']|] eqn:Hfind.
    + apply find_some in Hfind. destruct Hfind as [Hin' Hsame].
      apply same_location_eq in Hsame. simpl in Hsame.
      assert (Heq : (k', i') = (k, i)).
      { apply (NoDup_map_In (fun entry => location (snd entry)) _ _ _
                 Huniq Hin' Hin). simpl. congruence. }
      injection Heq as -> ->. simpl.
      rewrite (JsMapFacts.In_get _ _ _ Hnd Hin).
      destruct (Hports k i Hin) as [p [portSet Hget]]. rewrite Hget.
      unfold agent_of_entry. simpl. now rewrite Hget.
    + exfalso. pose proof (find_none _ _ Hfind (k, i) Hin) as Hno.
      simpl in Hno. rewrite Hloc, same_location_refl in Hno. discriminate.
Qed.

(** X5: in a sound registry, [getAllAgents] lists an agent exactly when
    [getAgentById] returns it for the id in its info. *)
Theorem getAllAgents_agrees_with_getAgentById s a :
  sound s ->
  In a (getAllAgents s) <-> getAgentById (id (info a)) s = Some a.
Proof.
  intros [[Hnd Hids] [Hports _]]. rewrite In_getAllAgents. split.
  - intros [k [i [Hin ->]]]. simpl. destruct (Hids k i Hin) as [-> _].
    unfold getAgentById, agent_of_entry. simpl.
    rewrite (JsMapFacts.In_get _ _ _ Hnd Hin).
    destruct (Hports k i Hin) as [p [portSet ->]]. reflexivity.
  - unfold getAgentById.
    destruct (JsMap.get (id (info a)) (agents s)) as [portSet|] eqn:Hget;
      [|discriminate].
    destruct (JsMap.get (id (info a)) (agentsInfo s)) as [i|] eqn:Hinfo;
      [|discriminate].
    intros Heq. exists (id (info a)), i. split.
    + now apply JsMapFacts.get_In.
    + unfold agent_of_entry. simpl. rewrite Hget. now injection Heq.
Qed.

(** X6: the registries the operations of the class lead to are sound: the
    info map has unique, non-empty keys and files every info under its own
    id, every agent has a port, and no location has two agents. *)
Theorem reachable_registries_are_sound fuel ops s' :
  (forall h, leaves_state h) ->
  uuids_nonempty ops ->
  perform_all fuel ops AgentManager_new = Some s' ->
  sound s' /\
  forall agentId a, getAgentById agentId s' = Some a ->
                    id (info a) = agentId /\ agentId <> "".
Proof.
  intros passive Huuids Hrun.
  pose proof (perform_all_sound passive fuel ops Huuids AgentManager_new s'
                AgentManager_new_sound Hrun) as Hsound.
  split; [exact Hsound|].
  intros agentId a. unfold getAgentById.
  destruct (JsMap.get agentId (agents s')) as [portSet|]; [|discriminate].
  destruct (JsMap.get agentId (agentsInfo s')) as [i|] eqn:Hinfo;
    [|discriminate].
  intros [= <-]. simpl. apply JsMapFacts.get_In in Hinfo.
  now apply (proj2 (proj1 Hsound)).
Qed.

End Reachable.

(** ** Round trips and repeated calls *)

Section RoundTrips.
Context {host : Host}.

Lemma getAgentByLocation_entry loc s a :
  well_formed s ->
  getAgentByLocation loc s = Some a ->
  find (fun entry => same_location (location (snd entry)) loc) (agentsInfo s)
  = Some (id (info a), info a).
Proof.
  intros [Hnd Hids]. unfold getAgentByLocation.
  destruct (find _ (agentsInfo s)) as [[k i]|] eqn:Hfind; [|discriminate].
  apply find_some in Hfind. destruct Hfind as [Hin _]. simpl.
  rewrite (JsMapFacts.In_get _ _ _ Hnd Hin).
  destruct (JsMap.get k (agents s)) as [[|p portSet]|]; try discriminate.
  intros [= <-]. simpl. now destruct (Hids k i Hin) as [-> _].
Qed.

(** X7: after [addAgent] has returned an id for a port, both
    [getAgentByLocation] at the port's identity key and [getAgentById] at
    the returned id return one agent: it has that id, the port among its
    ports and [lastActiveAt] at the time of the call. *)
Theorem addAgent_then_lookup fuel port uuid now s loc :
  identityKey port = Normal (Some loc) ->
  sound s ->
  fresh uuid s ->
  quiet "agentSetup" fuel s ->
  exists agentId s' a,
    addAgent fuel port uuid now s = Ok (Some agentId) s' /\
    getAgentByLocation loc s' = Some a /\
    getAgentById agentId s' = Some a /\
    id (info a) = agentId /\
    location (info a) = loc /\
    JsSet.has same_port port (ports a) = true /\
    lastActiveAt (info a) = now.
Proof.
  intros Hkey Hsound [Hfresh_ports Hfresh_info] Hquiet.
  destruct (identityKey_source _ _ Hkey) as [c [Hsrc Hloc]].
  pose proof (addAgent_quiet fuel port uuid now s c Hsrc Hquiet) as Hrun.
  cbv zeta in Hrun. rewrite Hloc in Hrun.
  destruct (resolved_id_cases loc uuid s Hsound)
    as [[a0 [Hfound [Hid [Hget Hloc0]]]]|[Hvac Hid]];
    rewrite Hid in Hrun.
  - rewrite Hget in Hrun.
    pose proof (getAgentByLocation_entry _ _ _ (proj1 Hsound) Hfound) as Hfind.
    destruct (add_nonempty port (getPortsByAgentId (id (info a0)) s))
      as [p [rest Hadd]].
    eexists _, _, _. split; [exact Hrun|].
    assert (Hlookup :
              getAgentByLocation loc
                (registered port (id (info a0))
                   (JsSet.add same_port port
                      (getPortsByAgentId (id (info a0)) s))
                   (touched (info a0) now) s)
              = Some {| ports := JsSet.add same_port port
                                   (getPortsByAgentId (id (info a0)) s);
                        info := touched (info a0) now |}).
    { unfold getAgentByLocation, registered. simpl.
      rewrite (find_set _ _ (touched (info a0) now) _ _ Hfind)
        by (simpl; rewrite Hloc0; apply same_location_refl).
      simpl. rewrite !JsMapFacts.get_set_same. now rewrite Hadd. }
    split; [exact Hlookup|].
    split.
    { unfold getAgentById, registered. simpl.
      now rewrite !JsMapFacts.get_set_same. }
    simpl. repeat split; try assumption. apply add_has.
  - rewrite Hfresh_info in Hrun. unfold getPortsByAgentId in Hrun.
    rewrite Hfresh_ports in Hrun.
    eexists _, _, _. split; [exact Hrun|].
    assert (Hlookup :
              getAgentByLocation loc
                (registered port uuid (JsSet.add same_port port [])
                   (new_agentInfo uuid loc now) s)
              = Some {| ports := [port];
                        info := new_agentInfo uuid loc now |}).
    { unfold getAgentByLocation, registered. simpl.
      rewrite (JsMapFacts.set_fresh uuid (new_agentInfo uuid loc now) _
                 Hfresh_info).
      rewrite (find_last _ _ (uuid, new_agentInfo uuid loc now)
                 (find_vacant _ _ Hvac))
        by apply same_location_refl.
      simpl. rewrite JsMapFacts.get_set_same.
      rewrite <- (JsMapFacts.set_fresh uuid (new_agentInfo uuid loc now) _
                    Hfresh_info).
      now rewrite JsMapFacts.get_set_same. }
    split; [exact Hlookup|].
    split.
    { unfold getAgentById, registered. simpl.
      now rewrite !JsMapFacts.get_set_same. }
    simpl. repeat split.
    unfold JsSet.has, same_port. simpl. now rewrite Nat.eqb_refl.
Qed.


(** X9: [removePortFromAgent] may run twice for one port (a listener fired
    again, or attached twice): the second call changes nothing and emits
    nothing, whether the first removed a port, removed the agent or found
    nothing. *)
Theorem removePortFromAgent_twice fuel agentId port s :
  quiet "agentDisconnect" fuel s ->
  exists s1,
    removePortFromAgent fuel agentId port s = Ok tt s1 /\
    removePortFromAgent fuel agentId port s1 = Ok tt s1.
Proof.
  intros Hquiet. unfold removePortFromAgent at 1.
  destruct (JsMap.get agentId (agents s)) as [portSet|] eqn:Hports.
  - cbv zeta.
    destruct (JsSet.delete same_port port portSet) as [|p remaining] eqn:Hrem.
    + simpl.
      destruct (JsMap.get agentId (agentsInfo s)) as [agentInfo|].
      * rewrite emit_quiet by (now apply (quiet_same_handlers _ _ s)).
        eexists. split; [reflexivity|].
        unfold removePortFromAgent. simpl.
        now rewrite JsMapFacts.get_delete_same.
      * eexists. split; [reflexivity|].
        unfold removePortFromAgent. simpl.
        now rewrite JsMapFacts.get_delete_same.
    + simpl. eexists. split; [reflexivity|].
      unfold removePortFromAgent. simpl.
      rewrite JsMapFacts.get_set_same. rewrite <- Hrem.
      rewrite delete_delete, Hrem. simpl. now rewrite set_set.
  - exists s. split; [reflexivity|].
    unfold removePortFromAgent. now rewrite Hports.
Qed.

(** X10: [removeAgent] twice is [removeAgent] once, and on an id
    [getAgentById] does not know it changes nothing. *)
Theorem removeAgent_twice agentId s :
  removeAgent agentId (removeAgent agentId s) = removeAgent agentId s /\
  (getAgentById agentId s = None -> removeAgent agentId s = s).
Proof.
  split.
  - unfold removeAgent at 2 3.
    destruct (JsMap.has agentId (agents s) && JsMap.has agentId (agentsInfo s))
      eqn:Hknown.
    + unfold removeAgent, JsMap.has. simpl.
      now rewrite JsMapFacts.get_delete_same.
    + unfold removeAgent. now rewrite Hknown.
  - unfold getAgentById, removeAgent, JsMap.has.
    destruct (JsMap.get agentId (agents s)); [|reflexivity].
    destruct (JsMap.get agentId (agentsInfo s)); [discriminate|reflexivity].
Qed.

Lemma In_set_same {V : Type} (k : string) (v : V) (m : list (string * V)) :
  In (k, v) (JsMap.set k v m).
Proof.
  induction m as [|[k' v'] m IH]; simpl; [now left|].
  destruct (k' =? k); simpl; auto.
Qed.

(** X11: after [addAgent] has returned an id for a port, [hasPort] answers
    true for that port, and for any other port object of the same name:
    [hasPort] compares names, not identities. *)
Theorem hasPort_after_addAgent fuel port uuid now s c q :
  identifyConnectionSource port = Normal (Some c) ->
  quiet "agentSetup" fuel s ->
  same_objects port s ->
  name q = name port ->
  exists agentId s',
    addAgent fuel port uuid now s = Ok (Some agentId) s' /\
    hasPort port s' = true /\
    hasPort q s' = true.
Proof.
  intros Hsrc Hquiet Hobj Hname.
  pose proof (addAgent_quiet fuel port uuid now s c Hsrc Hquiet) as Hrun.
  cbv zeta in Hrun.
  set (agentId := resolved_id (location_of_source c) uuid s) in *.
  eexists _, _. split; [exact Hrun|].
  assert (Hin : In port (JsSet.add same_port port (getPortsByAgentId agentId s))).
  { unfold JsSet.add.
    destruct (JsSet.has same_port port (getPortsByAgentId agentId s)) eqn:Hhas.
    - unfold JsSet.has in Hhas. apply existsb_exists in Hhas.
      destruct Hhas as [q0 [Hq0 Hsame]]. unfold same_port in Hsame.
      apply Nat.eqb_eq in Hsame. unfold getPortsByAgentId in *.
      destruct (JsMap.get agentId (agents s)) as [portSet|] eqn:Hget;
        [|contradiction].
      pose proof (JsMapFacts.get_In _ _ _ Hget) as Hentry.
      now rewrite <- (Hobj agentId portSet q0 Hentry Hq0 (eq_sym Hsame)).
    - apply in_or_app. right. now left. }
  assert (Hany : forall x, name x = name port ->
                           hasPort x
                             (registered port agentId
                                (JsSet.add same_port port
                                   (getPortsByAgentId agentId s))
                                match JsMap.get agentId (agentsInfo s) with
                                | Some e => touched e now
                                | None =>
                                    new_agentInfo agentId
                                      (location_of_source c) now
                                end s) = true).
  { intros x Hx. unfold hasPort, registered. simpl.
    apply existsb_exists. eexists. split; [apply In_set_same|].
    simpl. apply existsb_exists. exists port. split; [exact Hin|].
    rewrite Hx. apply String.eqb_refl. }
  split; [now apply Hany|now apply Hany].
Qed.

End RoundTrips.

(** ** Classification *)

Section Classifier.
Context {host : Host}.

Lemma includes_truthy needle u :
  needle <> "" -> Js.includes needle u = true -> Js.truthy_string u = true.
Proof.
  intros Hne. destruct u as [|ch u]; [|reflexivity].
  destruct needle as [|nc needle]; [congruence|]. discriminate.
Qed.

(** X12: classification throws exactly when the sender's URL contains
    [extension://] and the [URL] constructor rejects it; [addAgent] then
    throws before it has touched the registry. *)
Theorem addAgent_throws_on_rejected_url fuel port uuid now s :
  (identifyConnectionSource port = Abrupt <->
   exists sd u,
     sender port = Some sd /\ url sd = Some u /\
     Js.includes "extension://" u = true /\ URL_pathname u = None) /\
  (identifyConnectionSource port = Abrupt ->
   addAgent fuel port uuid now s = Exn s).
Proof.
  split.
  - unfold identifyConnectionSource.
    destruct (sender port) as [sd|];
      [|split; [discriminate|intros [sd [u [Hs _]]]; discriminate]].
    destruct (url sd) as [u|] eqn:Hurl; cbv zeta.
    + destruct (Js.includes "extension://" u) eqn:Hext.
      * pose proof (includes_truthy "extension://" u ltac:(discriminate) Hext)
          as Htruthy.
        unfold Js.or_string. rewrite Htruthy.
        destruct (tab sd); cbn [andb negb];
          (destruct (URL_pathname u) eqn:Hpath;
           [split; [discriminate|];
            intros [sd' [u' [[= <-] [Hu' [_ Hnone]]]]];
            rewrite Hurl in Hu'; injection Hu' as <-; congruence
           |split; [|reflexivity]; intros _; exists sd, u; now rewrite Hurl]).
      * split.
        -- destruct (tab sd); destruct (Js.truthy_string u);
             cbn [andb negb]; discriminate.
        -- intros [sd' [u' [[= <-] [Hu' [Hinc _]]]]].
           rewrite Hurl in Hu'. injection Hu' as <-. congruence.
    + split.
      * destruct (tab sd); cbn [andb negb]; discriminate.
      * intros [sd' [u' [[= <-] [Hu' _]]]]. congruence.
  - intros Habrupt. unfold addAgent. now rewrite Habrupt.
Qed.

(** X13: the identity key [addAgent] files a port under has one of nine
    contexts (content script, unknown, or one of the seven extension page
    types) and never the tab id 0. *)
Theorem identityKey_range port key :
  identityKey port = Normal (Some key) ->
  In (context key) known_contexts /\ tabId key <> 0%Z.
Proof.
  intros Hkey. destruct (identityKey_source _ _ Hkey) as [c [Hsrc <-]].
  split; [|now apply or_number_nonzero].
  unfold location_of_source. simpl.
  unfold identifyConnectionSource in Hsrc.
  destruct (sender port) as [sd|]; [|discriminate].
  destruct (_ && _ && _) in Hsrc.
  - injection Hsrc as <-. simpl. auto.
  - destruct (_ && _) in Hsrc.
    + destruct (URL_pathname _) as [urlPath|] in Hsrc; [|discriminate].
      destruct (find _ pageMatchers) as [[pageType m]|] eqn:Hfind in Hsrc;
        injection Hsrc as <-; cbn [source_context]; [|simpl; auto].
      apply find_some in Hfind. destruct Hfind as [Hin _].
      unfold pageMatchers in Hin. cbv zeta in Hin. cbn [In] in Hin.
      repeat (destruct Hin as [[= <- _]|Hin]; [simpl; auto 12|]).
      contradiction.
    + injection Hsrc as <-. simpl. auto.
Qed.

End Classifier.

(** ** Subscription order and the queries *)

Section Queries.
Context {host : Host}.



Lemma query_matches_spec q i :
  query_matches q i = true <->
  (forall c, partial_context q = Some c -> c <> "" ->
             context (location i) = c) /\
  (forall t, partial_tabId q = Some t -> t <> 0%Z ->
             tabId (location i) = t) /\
  (forall f, partial_frameId q = Some f -> f <> 0%Z ->
             frameId (location i) = f).
Proof.
  unfold query_matches, Js.truthy_string, Js.truthy_number.
  rewrite !andb_true_iff.
  destruct (partial_context q) as [c|];
    destruct (partial_tabId q) as [t|];
    destruct (partial_frameId q) as [f|];
    repeat match goal with
           | |- context [(?x =? "")%string] =>
               destruct (String.eqb_spec x ""); simpl
           | |- context [(?x =? 0)%Z] =>
               destruct (Z.eqb_spec x 0); simpl
           end;
    rewrite ?String.eqb_eq, ?Z.eqb_eq;
    (split;
     [intros [[H1 H2] H3]; repeat split; intros ? [= <-] ?;
      congruence
     |intros [H1 [H2 H3]]; repeat split;
      try reflexivity;
      first [now apply H1 | now apply H2 | now apply H3]]).
Qed.

(** X15: what [queryAgents] returns: the agents [getAllAgents] lists that
    agree with every field of the partial location that is present and
    neither empty nor zero. *)
Theorem queryAgents_selects q s a :
  In a (queryAgents q s) <->
  In a (getAllAgents s) /\
  (forall c, partial_context q = Some c -> c <> "" ->
             context (location (info a)) = c) /\
  (forall t, partial_tabId q = Some t -> t <> 0%Z ->
             tabId (location (info a)) = t) /\
  (forall f, partial_frameId q = Some f -> f <> 0%Z ->
             frameId (location (info a)) = f).
Proof.
  unfold queryAgents, getAllAgents. rewrite !in_map_iff. split.
  - intros [[k i] [<- Hin]]. apply filter_In in Hin. destruct Hin as [Hin Hm].
    split; [now exists (k, i)|]. now apply query_matches_spec.
  - intros [[[k i] [<- Hin]] Hm]. exists (k, i). split; [reflexivity|].
    apply filter_In. split; [exact Hin|]. now apply query_matches_spec.
Qed.

(** X16: [getAgentsByContext] is the query for a context alone, for a
    context that is not the empty string; the query with no field present
    is [getAllAgents]. *)
Theorem getAgentsByContext_is_a_query c s :
  c <> "" ->
  queryAgents {| partial_context := Some c; partial_tabId := None;
                 partial_frameId := None |} s = getAgentsByContext c s /\
  queryAgents {| partial_context := None; partial_tabId := None;
                 partial_frameId := None |} s = getAllAgents s.
Proof.
  intros Hne. unfold queryAgents, getAgentsByContext, getAllAgents. split.
  - f_equal. apply filter_ext. intros [k i]. unfold query_matches. simpl.
    unfold Js.truthy_string. apply String.eqb_neq in Hne. rewrite Hne. simpl.
    now rewrite !andb_true_r.
  - f_equal. induction (agentsInfo s) as [|e l IH]; simpl; [reflexivity|].
    now rewrite IH.
Qed.

(** X17: [addAgent] never changes who an agent is: every agent the registry
    held keeps its id, location and [createdAt] (only the agent the port
    went to has [lastActiveAt] refreshed), the agents of other ids read as
    before, and the agent of the returned id loses no port. *)
Theorem addAgent_keeps_identities fuel port uuid now s c :
  identifyConnectionSource port = Normal (Some c) ->
  quiet "agentSetup" fuel s ->
  exists agentId s',
    addAgent fuel port uuid now s = Ok (Some agentId) s' /\
    (forall k e,
        JsMap.get k (agentsInfo s) = Some e ->
        exists e',
          JsMap.get k (agentsInfo s') = Some e' /\
          id e' = id e /\ location e' = location e /\
          createdAt e' = createdAt e /\
          (k <> agentId -> e' = e) /\
          (k = agentId -> lastActiveAt e' = now)) /\
    (forall k, k <> agentId ->
               getAgentById k s' = getAgentById k s /\
               getPortsByAgentId k s' = getPortsByAgentId k s) /\
    (forall p, In p (getPortsByAgentId agentId s) ->
               In p (getPortsByAgentId agentId s')).
Proof.
  intros Hsrc Hquiet.
  pose proof (addAgent_quiet fuel port uuid now s c Hsrc Hquiet) as Hrun.
  cbv zeta in Hrun.
  set (agentId := resolved_id (location_of_source c) uuid s) in *.
  eexists _, _. split; [exact Hrun|]. split; [|split].
  - intros k e Hget. unfold registered. simpl.
    destruct (String.eqb_spec k agentId) as [->|Hne].
    + rewrite JsMapFacts.get_set_same, Hget. eexists. split; [reflexivity|].
      simpl. repeat split; congruence.
    + rewrite JsMapFacts.get_set_other by exact Hne. exists e.
      repeat split; try assumption; congruence.
  - intros k Hne. unfold getAgentById, getPortsByAgentId, registered. simpl.
    now rewrite !JsMapFacts.get_set_other by exact Hne.
  - intros p Hp. unfold getPortsByAgentId at 1. unfold registered. simpl.
    rewrite JsMapFacts.get_set_same. unfold JsSet.add.
    destruct (JsSet.has same_port port (getPortsByAgentId agentId s));
      [exact Hp|]. apply in_or_app. now left.
Qed.

End Queries.

(** ** The event names *)

Section EventNames.
Context {host : Host}.
Hypothesis passive : forall h, leaves_state h.

Lemma perform_keeps_event_names fuel op s s' :
  perform fuel op s = Some s' ->
  JsMap.keys (eventHandlers s') = JsMap.keys (eventHandlers s).
Proof.
  destruct op as [port uuid now|agentId|agentId port|event h]; simpl.
  - intros Hrun.
    destruct (identifyConnectionSource port) as [[c|]|] eqn:Hsrc.
    + destruct (addAgent_passive_maps passive _ _ _ _ _ _ _ Hsrc Hrun)
        as [_ [_ ->]]. reflexivity.
    + now rewrite (addAgent_not_added fuel port uuid now _ _
                     (or_introl Hsrc) Hrun).
    + now rewrite (addAgent_not_added fuel port uuid now _ _
                     (or_intror Hsrc) Hrun).
  - intros [= <-]. unfold removeAgent. now destruct (_ && _).
  - intros Hrun.
    destruct (removePortFromAgent_passive_maps passive _ _ _ _ _ Hrun)
      as [-> _]. reflexivity.
  - intros [= <-]. unfold on.
    destruct (JsMap.get event (eventHandlers s)) as [hs|] eqn:Hget;
      [|reflexivity].
    simpl. rewrite keys_set. unfold JsMap.has. now rewrite Hget.
Qed.

Lemma perform_all_keeps_event_names fuel ops :
  forall s s',
    perform_all fuel ops s = Some s' ->
    JsMap.keys (eventHandlers s') = JsMap.keys (eventHandlers s).
Proof.
  induction ops as [|op ops IH]; intros s s'; simpl.
  - now intros [= <-].
  - destruct (perform fuel op s) as [s1|] eqn:Hstep; [|discriminate].
    intros Hrun. rewrite (IH _ _ Hrun). now apply (perform_keeps_event_names fuel op).
Qed.

End EventNames.

(** X18: the registry knows the three event names of its constructor and
    no operation adds one: in every registry the operations lead to, [on]
    for any other name changes nothing, so such a handler is never
    invoked. *)
Theorem event_names_are_fixed {host : Host} fuel ops s' :
  (forall h, leaves_state h) ->
  perform_all fuel ops AgentManager_new = Some s' ->
  JsMap.keys (eventHandlers s') = ["agentSetup"; "agentMessage"; "agentDisconnect"] /\
  forall event h,
    ~ In event ["agentSetup"; "agentMessage"; "agentDisconnect"] ->
    on event h s' = s' /\ subscribers event s' = [].
Proof.
  intros passive Hrun.
  pose proof (perform_all_keeps_event_names passive fuel ops _ _ Hrun) as Hkeys.
  simpl in Hkeys. split; [exact Hkeys|].
  intros event h Hnotin. rewrite <- Hkeys in Hnotin.
  apply JsMapFacts.get_None in Hnotin.
  unfold on, subscribers. now rewrite Hnotin.
Qed.

(** ** The further properties on the sample registries *)

Lemma busy_reached :
  perform_all (host := Sample.host) 8 (firstn 5 Sample.script) AgentManager_new
  = Some Scenario.busy.
Proof. vm_compute. reflexivity. Qed.

Lemma busy_uuids : uuids_nonempty (firstn 5 Sample.script).
Proof. repeat constructor; discriminate. Qed.

Lemma busy_sound : sound Scenario.busy.
Proof.
  exact (perform_all_sound sample_passive 8 (firstn 5 Sample.script)
           busy_uuids AgentManager_new Scenario.busy
           AgentManager_new_sound busy_reached).
Qed.

Lemma busy_quiet_setup : quiet (host := Sample.host) "agentSetup" 1 Scenario.busy.
Proof.
  unfold quiet.
  assert (Hsub : subscribers "agentSetup" Scenario.busy = [2%nat])
    by (vm_compute; reflexivity).
  rewrite Hsub. split.
  - intros h [<-|[]] args s. reflexivity.
  - simpl. lia.
Qed.

Lemma every_agent_has_a_port_witness :
  (forall a, In a (getAllAgents Scenario.busy) -> ports a <> []) /\
  (forall agentId a,
      getAgentById agentId Scenario.busy = Some a -> ports a <> []).
Proof.
  apply (@every_agent_has_a_port Sample.host 8 (firstn 5 Sample.script)
           Scenario.busy sample_passive busy_reached).
Defined.

Lemma one_agent_per_location_witness : Scenario.agent_a1 = Scenario.agent_a1.
Proof.
  apply (@one_agent_per_location Sample.host 8 (firstn 5 Sample.script)
           Scenario.busy sample_passive busy_uuids busy_reached).
  - vm_compute. auto.
  - vm_compute. auto.
  - reflexivity.
Defined.

Lemma no_agent_at_tab_zero_witness :
  (forall a, In a (getAllAgents Scenario.busy) ->
             tabId (location (info a)) <> 0%Z) /\
  (forall c f,
      getAgentByLocation {| context := c; tabId := 0; frameId := f |}
                         Scenario.busy = None).
Proof.
  apply (@no_agent_at_tab_zero Sample.host 8 (firstn 5 Sample.script)
           Scenario.busy sample_passive busy_reached).
Defined.

Lemma getAgentByLocation_finds_the_agent_witness :
  getAgentByLocation Scenario.page_key Scenario.busy = Some Scenario.agent_a1 <->
  In Scenario.agent_a1 (getAllAgents Scenario.busy) /\
  location (info Scenario.agent_a1) = Scenario.page_key.
Proof.
  apply (@getAgentByLocation_finds_the_agent Scenario.page_key Scenario.busy
           Scenario.agent_a1 busy_sound).
Defined.

Lemma getAllAgents_agrees_with_getAgentById_witness :
  In Scenario.agent_a1 (getAllAgents Scenario.busy) <->
  getAgentById (id (info Scenario.agent_a1)) Scenario.busy
  = Some Scenario.agent_a1.
Proof.
  apply (@getAllAgents_agrees_with_getAgentById Scenario.busy
           Scenario.agent_a1 busy_sound).
Defined.

Lemma reachable_registries_are_sound_witness :
  sound Scenario.busy /\
  forall agentId a, getAgentById agentId Scenario.busy = Some a ->
                    id (info a) = agentId /\ agentId <> "".
Proof.
  apply (@reachable_registries_are_sound Sample.host 8
           (firstn 5 Sample.script) Scenario.busy sample_passive busy_uuids
           busy_reached).
Defined.

Lemma addAgent_then_lookup_witness :
  exists agentId s' a,
    addAgent (host := Sample.host) 1 (Sample.page_port 4 7 5) "a4" 400
             Scenario.busy = Ok (Some agentId) s' /\
    getAgentByLocation Scenario.page_key s' = Some a /\
    getAgentById agentId s' = Some a /\
    id (info a) = agentId /\
    location (info a) = Scenario.page_key /\
    JsSet.has same_port (Sample.page_port 4 7 5) (ports a) = true /\
    lastActiveAt (info a) = 400%Z.
Proof.
  apply (@addAgent_then_lookup Sample.host 1 (Sample.page_port 4 7 5) "a4" 400
           Scenario.busy Scenario.page_key).
  - reflexivity.
  - exact busy_sound.
  - split; vm_compute; reflexivity.
  - exact busy_quiet_setup.
Defined.


Lemma removePortFromAgent_twice_witness :
  exists s1,
    removePortFromAgent (host := Sample.host) 1 "a1" (Sample.page_port 1 7 5)
                        Sample.two_ports = Ok tt s1 /\
    removePortFromAgent (host := Sample.host) 1 "a1" (Sample.page_port 1 7 5) s1
    = Ok tt s1.
Proof.
  apply (@removePortFromAgent_twice Sample.host 1 "a1" (Sample.page_port 1 7 5)
           Sample.two_ports).
  now apply sample_quiet_disconnect.
Defined.

Lemma removeAgent_twice_witness : removeAgent "zz" Scenario.busy = Scenario.busy.
Proof.
  apply (proj2 (removeAgent_twice "zz" Scenario.busy)).
  vm_compute. reflexivity.
Defined.

Lemma hasPort_after_addAgent_witness :
  exists agentId s',
    addAgent (host := Sample.host) 1 (Sample.page_port 1 7 5) "a1" 100
             Sample.subscribed = Ok (Some agentId) s' /\
    hasPort (Sample.page_port 1 7 5) s' = true /\
    hasPort Scenario.namesake s' = true.
Proof.
  apply (@hasPort_after_addAgent Sample.host 1 (Sample.page_port 1 7 5) "a1" 100
           Sample.subscribed
           {| source_context := "contentscript";
              source_tabId := Some 7%Z;
              source_frameId := Some 5%Z;
              source_url := Some "http://example.com";
              source_portName := "porter" |}
           Scenario.namesake).
  - reflexivity.
  - now apply sample_quiet_setup.
  - intros k portSet q [].
  - reflexivity.
Defined.

Lemma addAgent_throws_on_rejected_url_witness :
  addAgent (host := Scenario.strict_host) 1
           (Scenario.extension_port 4 Scenario.rejected_url) "a4" 400
           Sample.subscribed = Exn Sample.subscribed.
Proof.
  apply (proj2 (@addAgent_throws_on_rejected_url Scenario.strict_host 1
                  (Scenario.extension_port 4 Scenario.rejected_url) "a4" 400
                  Sample.subscribed)).
  reflexivity.
Defined.

Lemma identityKey_range_witness :
  In (context Scenario.page_key) (known_contexts (host := Sample.host)) /\
  tabId Scenario.page_key <> 0%Z.
Proof.
  apply (@identityKey_range Sample.host (Sample.page_port 1 7 5)
           Scenario.page_key).
  reflexivity.
Defined.


Lemma getAgentsByContext_is_a_query_witness :
  queryAgents {| partial_context := Some "contentscript";
                 partial_tabId := None; partial_frameId := None |}
              Scenario.busy
  = getAgentsByContext "contentscript" Scenario.busy /\
  queryAgents {| partial_context := None; partial_tabId := None;
                 partial_frameId := None |} Scenario.busy
  = getAllAgents Scenario.busy.
Proof.
  apply (getAgentsByContext_is_a_query "contentscript" Scenario.busy).
  discriminate.
Defined.

Lemma addAgent_keeps_identities_witness :
  exists agentId s',
    addAgent (host := Sample.host) 1 (Sample.page_port 4 7 5) "a4" 400
             Scenario.busy = Ok (Some agentId) s' /\
    (forall k e,
        JsMap.get k (agentsInfo Scenario.busy) = Some e ->
        exists e',
          JsMap.get k (agentsInfo s') = Some e' /\
          id e' = id e /\ location e' = location e /\
          createdAt e' = createdAt e /\
          (k <> agentId -> e' = e) /\
          (k = agentId -> lastActiveAt e' = 400%Z)) /\
    (forall k, k <> agentId ->
               getAgentById k s' = getAgentById k Scenario.busy /\
               getPortsByAgentId k s' = getPortsByAgentId k Scenario.busy) /\
    (forall p, In p (getPortsByAgentId agentId Scenario.busy) ->
               In p (getPortsByAgentId agentId s')).
Proof.
  apply (@addAgent_keeps_identities Sample.host 1 (Sample.page_port 4 7 5) "a4"
           400 Scenario.busy
           {| source_context := "contentscript";
              source_tabId := Some 7%Z;
              source_frameId := Some 5%Z;
              source_url := Some "http://example.com";
              source_portName := "porter" |}).
  - reflexivity.
  - exact busy_quiet_setup.
Defined.

Lemma event_names_are_fixed_witness :
  JsMap.keys (eventHandlers Scenario.busy)
  = ["agentSetup"; "agentMessage"; "agentDisconnect"] /\
  forall event h,
    ~ In event ["agentSetup"; "agentMessage"; "agentDisconnect"] ->
    on event h Scenario.busy = Scenario.busy /\
    subscribers event Scenario.busy = [].
Proof.
  apply (@event_names_are_fixed Sample.host 8 (firstn 5 Sample.script)
           Scenario.busy sample_passive busy_reached).
Defined.
